(** * Downloader: the [download-file] plugin tool and command-line program

    A shallow embedding of the two TypeScript sources of the repository,

    - [src/download-file.ts], the plugin tool ([Plugin] below), and
    - the command-line program ([Cli] below),

    together with the properties of the download algorithm that the
    specification states about them.

    The programs are written against the JavaScript runtime: the [URL]
    class, [node:path], [fetch], [node:http] and the file system.  What
    the runtime computes is not code of the repository, so it is taken as
    an interface ([Platform]) and as an environment (the network and the
    file system of a [World]).  General theorems hold for every platform;
    the scenarios of the specification are evaluated on a reference
    platform ([Reference]).

    [Plugin] and [Cli] have the programs on a file system that accepts
    every request; [OnDisk] has them on one that can refuse ([Disk]),
    where a directory may not be made and a file not be written. *)

From Stdlib Require Import ZArith List String Ascii Lia.
From Stdlib.Strings Require Import Byte.
From stdpp Require Import gmap strings list pretty.
From Equations Require Import Equations.
Import ListNotations.

(** ** JavaScript values used by the sources *)

Module Js.

(** [Boolean(s)] for a string [s]: only the empty string is falsy. *)
Definition truthy (s : string) : bool := negb (String.eqb s "").

(** Truthiness of a value of type [string | undefined]. *)
Definition truthy_opt (o : option string) : bool :=
  match o with
  | Some s => truthy s
  | None => false
  end.

(** [o || d] for [o : string | undefined] and a string [d]. *)
Definition or_else (o : option string) (d : string) : string :=
  match o with
  | Some s => if truthy s then s else d
  | None => d
  end.

(** The string that a truthy [o : string | undefined] is (what the type
    checker narrows [o] to in the branch guarded by its truthiness). *)
Definition narrowed (o : option string) : string :=
  match o with
  | Some s => s
  | None => ""
  end.

(** [o ?? d] for [o : number | undefined]. *)
Definition nullish (o : option Z) (d : Z) : Z :=
  match o with
  | Some z => z
  | None => d
  end.

(** [s.split(sep)] for a one-character separator: the pieces between
    the separators, in order; the empty string splits into one empty
    piece. *)
Fixpoint split (sep : ascii) (s : string) : list string :=
  match s with
  | EmptyString => [EmptyString]
  | String c rest =>
      if Ascii.eqb c sep then EmptyString :: split sep rest
      else match split sep rest with
           | piece :: pieces => String c piece :: pieces
           | [] => [String c EmptyString]
           end
  end.

(** [xs.includes(x)] on an array of strings and on an array of numbers. *)
Definition includes (xs : list string) (x : string) : bool :=
  existsb (String.eqb x) xs.

Definition includesZ (xs : list Z) (x : Z) : bool :=
  existsb (Z.eqb x) xs.

(** [xs.pop()]: the last element, [undefined] on an empty array (the
    array itself is not used again by the sources). *)
Definition pop (xs : list string) : option string := last xs.

End Js.

(** ** The runtime interface *)

(** A WHATWG [URL] object: the fields the sources read ([protocol] and
    [pathname]) and the other components its serialisation is made of. *)
Record URL := mkURL {
  protocol : string;          (* the scheme followed by a colon, e.g. https: *)
  host : string;              (* host and port *)
  pathname : string;
  query : option string;      (* what follows the question mark, if there is one *)
  fragment : option string    (* what follows the hash sign, if there is one *)
}.

(** What the sources call of the runtime, apart from input and output.
    [None] stands for the [TypeError] the [URL] constructor throws. *)
Class Platform := {
  URL_parse : string -> option URL;               (* new URL(input) *)
  URL_parse_base : string -> URL -> option URL;   (* new URL(input, base) *)
  URL_toString : URL -> string;                   (* url.toString() *)
  path_isAbsolute : string -> bool;               (* isAbsolute(p) *)
  path_resolve : list string -> string;           (* resolve(...paths) *)
  path_dirname : string -> string;                (* dirname(p) *)
  process_cwd : string                            (* process.cwd() *)
}.

(** ** Responses *)

(** How the body of a response arrives: completely, or as a prefix
    followed by a transport error. *)
Inductive BodyStream :=
| BodyComplete (data : list byte)
| BodyAborted (received : list byte) (reason : string).

(** The response a [node:http] or [node:https] request calls back with:
    the fields of the [IncomingMessage] that the sources read. *)
Record IncomingMessage := mkIncomingMessage {
  statusCode : option Z;               (* response.statusCode *)
  headers_location : option string;    (* response.headers.location *)
  body : BodyStream
}.

(** A request emits an error, or calls back with a response. *)
Inductive RequestResult :=
| RequestFailed (reason : string)
| Responded (response : IncomingMessage).

(** ** The world: file system and observable actions

    The file system is a finite map from paths to contents and a set of
    directories; a log keeps the actions of a run in the order in which
    they happen.  The two operations below are those of a file system
    that accepts whatever it is asked; [Disk] further down has the
    operations of one that can refuse, and [OnDisk] the two programs on
    it.  A request is always answered or refused. *)

Inductive RequestImpl := httpRequest | httpsRequest.

(** The network, as the environment provides it: what a request made with
    either implementation for a URL leads to. *)
Definition Network : Type := RequestImpl -> URL -> RequestResult.

Inductive Event :=
| Requested (impl : RequestImpl) (target : URL)   (* node:http(s) request *)
| Fetched (target : URL)                          (* fetch(url) *)
| MadeDir (dir : string)                          (* mkdir, recursive *)
| Wrote (path : string) (data : list byte)        (* file opened for writing, data written *)
| Logged (line : string)                          (* console.log *)
| LoggedError (line : string).                    (* console.error *)

Record World := mkWorld {
  files : gmap string (list byte);
  dirs : gset string;
  events : list Event
}.

Definition record (e : Event) (w : World) : World :=
  {| files := files w; dirs := dirs w; events := events w ++ [e] |}.

(** [mkdir(dir, { recursive: true })]: the directory exists afterwards. *)
Definition fs_mkdir (dir : string) (w : World) : World :=
  {| files := files w; dirs := {[dir]} ∪ dirs w; events := events w ++ [MadeDir dir] |}.

(** The file at [path] is created or truncated and holds [data]. *)
Definition fs_write (path : string) (data : list byte) (w : World) : World :=
  {| files := <[path := data]> (files w); dirs := dirs w;
     events := events w ++ [Wrote path data] |}.


Definition is_net_event (e : Event) : bool :=
  match e with
  | Requested _ _ | Fetched _ => true
  | _ => false
  end.

(** ** Errors and outcomes *)

(** A JavaScript error object: its class and its message. *)
Inductive Error :=
| JsError (message : string)       (* new Error(message) *)
| TypeError (message : string)     (* thrown by the URL constructor *)
| SystemError (message : string).  (* raised by the network layer or the file system *)

Definition error_message (e : Error) : string :=
  match e with
  | JsError m | TypeError m | SystemError m => m
  end.

(** How a computation ends: it returns (a promise resolves), it throws
    (a promise rejects), the process exits, or an exception escapes every
    promise and handler. *)
Inductive Outcome (A : Type) :=
| Returned (a : A)
| Thrown (e : Error)
| Exited (code : Z)
| Uncaught (e : Error).
Arguments Returned {A} a.
Arguments Thrown {A} e.
Arguments Exited {A} code.
Arguments Uncaught {A} e.

Definition Run (A : Type) : Type := World -> Outcome A * World.

Definition ret {A} (a : A) : Run A := fun w => (Returned a, w).

Definition throw {A} (e : Error) : Run A := fun w => (Thrown e, w).

Definition exit {A} (code : Z) : Run A := fun w => (Exited code, w).

Definition bind {A B} (m : Run A) (k : A -> Run B) : Run B :=
  fun w =>
    match m w with
    | (Returned a, w') => k a w'
    | (Thrown e, w') => (Thrown e, w')
    | (Exited c, w') => (Exited c, w')
    | (Uncaught e, w') => (Uncaught e, w')
    end.

(** [try { m } catch (error) { h error }] *)
Definition try_catch {A} (m : Run A) (h : Error -> Run A) : Run A :=
  fun w =>
    match m w with
    | (Thrown e, w') => h e w'
    | other => other
    end.

Definition act (f : World -> World) : Run unit := fun w => (Returned tt, f w).

Declare Scope run_scope.
Delimit Scope run_scope with run.
Notation "'let*' x ':=' m 'in' k" := (bind m (fun x => k))
  (at level 10, x name, m at level 100, k at level 200) : run_scope.
Notation "m ';;' k" := (bind m (fun _ => k))
  (at level 100, k at level 200, right associativity) : run_scope.

(** The error kinds of the specification, as the error objects the
    sources construct. *)
Definition UnsupportedScheme : Error :=
  JsError "Only http and https URLs are supported.".

Definition DownloadFailed (status : Z) : Error :=
  JsError ("Download failed with status " +:+ pretty status +:+ ".").

Definition TransportError (reason : string) : Error := SystemError reason.

(** [new URL(input)], throwing the platform's [TypeError]. *)
Definition new_URL `{Platform} (input : string) : Run URL :=
  match URL_parse input with
  | Some u => ret u
  | None => throw (TypeError "Invalid URL")
  end.

(** ** The plugin tool, [src/download-file.ts]

    [execute] is the function of the tool; the plugin framework checks
    its arguments against the schema before it calls [execute]. *)

Module Plugin.

(** A [Response] of [fetch]: its status, the URL it was finally
    obtained from, and its body. *)
Record Response := mkResponse {
  status : Z;
  response_url : string;
  response_body : BodyStream
}.

(** [response.ok]: the status is in the range 200 to 299. *)
Definition ok (r : Response) : bool :=
  (200 <=? status r)%Z && (status r <=? 299)%Z.

(** [fetch] rejects, or resolves with a response. *)
Inductive FetchResult :=
| FetchRejected (reason : string)
| FetchResolved (r : Response).

(** The tool's arguments, the part of the plugin context it reads, and
    the object it returns. *)
Record Args := mkArgs {
  arg_url : string;
  arg_outputPath : option string
}.

Record ToolContext := mkToolContext { directory : string }.

Record TransferResult := mkTransferResult {
  url : string;
  outputPath : string;
  bytesWritten : nat
}.

Section WithPlatform.
  Context `{Platform}.

  (** The runtime's [fetch], as the environment provides it. *)
  Variable fetch : URL -> FetchResult.

Definition inferFilenameFromUrl (url : URL) : string :=
  let lastSegment :=
    Js.pop (List.filter Js.truthy (Js.split "/" (pathname url))) in
  Js.or_else lastSegment "downloaded-file".

(** The expression bound to [outputPath] in [execute]. *)
Definition resolveDestination
    (parsedUrl : URL) (destinationPath : option string) (baseDirectory : string)
  : string :=
  match destinationPath with
  | Some p =>
      if Js.truthy p then
        if path_isAbsolute p then p else path_resolve [baseDirectory; p]
      else path_resolve [baseDirectory; inferFilenameFromUrl parsedUrl]
  | None => path_resolve [baseDirectory; inferFilenameFromUrl parsedUrl]
  end.

(** [await fetch(parsedUrl)] *)
Definition await_fetch (target : URL) : Run Response :=
  fun w =>
    let w' := record (Fetched target) w in
    match fetch target with
    | FetchRejected reason => (Thrown (TransportError reason), w')
    | FetchResolved r => (Returned r, w')
    end.

(** [await response.arrayBuffer()] *)
Definition arrayBuffer (r : Response) : Run (list byte) :=
  match response_body r with
  | BodyComplete data => ret data
  | BodyAborted _ reason => throw (TransportError reason)
  end.

Definition execute (args : Args) (context : ToolContext) : Run TransferResult :=
  (let* parsedUrl := new_URL (arg_url args) in
   if negb (Js.includes ["http:"; "https:"] (protocol parsedUrl)) then
     throw UnsupportedScheme
   else
     let outputPath :=
       resolveDestination parsedUrl (arg_outputPath args) (directory context) in
     let* response := await_fetch parsedUrl in
     if negb (ok response) then throw (DownloadFailed (status response))
     else
       let* arrayBuffer := arrayBuffer response in
       act (fs_mkdir (path_dirname outputPath)) ;;
       act (fs_write outputPath arrayBuffer) ;;
       ret {| url := URL_toString parsedUrl;
              outputPath := outputPath;
              bytesWritten := length arrayBuffer |})%run.

End WithPlatform.

End Plugin.

(** ** The command-line program

    [download] is written with callbacks inside a promise; here it is a
    function of the world that returns how the promise settles. *)

Module Cli.

Definition MAX_REDIRECTS : nat := 5.

Record CliArgs := mkCliArgs {
  url : string;
  output : string
}.

Definition TooManyRedirects : Error :=
  JsError ("Too many redirects (>" +:+ pretty MAX_REDIRECTS +:+ ").").

Definition InvalidURL (urlArg : string) : Error :=
  JsError ("Invalid URL: " +:+ urlArg).

Definition usage : string :=
  "Usage:" +:+ String "010" "  download-file <url> [output-path]" +:+
  String "010" (String "010" "Examples:") +:+
  String "010" "  download-file https://example.com/file.zip" +:+
  String "010" "  download-file https://example.com/file.zip ./downloads/file.zip".

Definition printUsage : Run unit := act (record (Logged usage)).

Section WithPlatform.
  Context `{Platform}.

  Variable net : Network.

Definition inferFilenameFromUrl (url : URL) : string :=
  let pathname := pathname url in
  let lastSegment := Js.pop (List.filter Js.truthy (Js.split "/" pathname)) in
  Js.or_else lastSegment "downloaded-file".

(** The expression bound to [output] in [parseArgs]. *)
Definition resolveOutput (parsedUrl : URL) (outputArg : option string) : string :=
  if Js.truthy_opt outputArg then path_resolve [Js.narrowed outputArg]
  else path_resolve [process_cwd; inferFilenameFromUrl parsedUrl].

Definition parseArgs (argv : list string) : Run CliArgs :=
  (let urlArg := argv !! 0%nat in
   let outputArg := argv !! 1%nat in
   if negb (Js.truthy_opt urlArg)
      || String.eqb (Js.narrowed urlArg) "--help"
      || String.eqb (Js.narrowed urlArg) "-h"
   then
     printUsage ;;
     exit (if Js.truthy_opt urlArg then 0 else 1)%Z
   else
     let* parsedUrl :=
       try_catch (new_URL (Js.narrowed urlArg))
                 (fun _ => throw (InvalidURL (Js.narrowed urlArg))) in
     if negb (Js.includes ["http:"; "https:"] (protocol parsedUrl)) then
       throw UnsupportedScheme
     else
       let output := resolveOutput parsedUrl outputArg in
       ret {| url := URL_toString parsedUrl; output := output |})%run.

(** The condition under which [download] treats a response as a
    redirect to follow. *)
Definition is_redirect (response : IncomingMessage) : bool :=
  Js.includesZ [301; 302; 303; 307; 308]%Z (Js.nullish (statusCode response) 0)
  && Js.truthy_opt (headers_location response).

Definition requestImpl_for (parsed : URL) : RequestImpl :=
  if String.eqb (protocol parsed) "https:" then httpsRequest else httpRequest.

(** [download]: the promise it returns resolves ([Returned]) or
    rejects ([Thrown]).  An exception thrown inside the response
    callback is outside the promise ([Uncaught]). *)
Equations? download (url output : string) (redirects : nat) (w : World)
  : Outcome unit * World by wf (MAX_REDIRECTS - redirects)%nat lt :=
download url output redirects w :=
  match URL_parse url with
  | None => (Thrown (TypeError "Invalid URL"), w)
  | Some parsed =>
      let requestImpl := requestImpl_for parsed in
      let w := record (Requested requestImpl parsed) w in
      match net requestImpl parsed with
      | RequestFailed requestError => (Thrown (TransportError requestError), w)
      | Responded response =>
          let statusCode := Js.nullish (statusCode response) 0 in
          let location := headers_location response in
          if is_redirect response then
            (* response.resume() leaves the body unread *)
            match decide (MAX_REDIRECTS ≤ redirects)%nat with
            | left _ => (Thrown TooManyRedirects, w)
            | right _ =>
                match URL_parse_base (Js.narrowed location) parsed with
                | None => (Uncaught (TypeError "Invalid URL"), w)
                | Some next =>
                    let nextUrl := URL_toString next in
                    download nextUrl output (redirects + 1) w
                end
            end
          else if (statusCode <? 200)%Z || (300 <=? statusCode)%Z then
            (Thrown (DownloadFailed statusCode), w)
          else
            let w := fs_mkdir (path_dirname output) w in
            match body response with
            | BodyComplete data => (Returned tt, fs_write output data w)
            | BodyAborted received responseError =>
                (Thrown (TransportError responseError), fs_write output received w)
            end
      end
  end.
Proof. lia. Qed.

Definition main (argv : list string) : Run unit :=
  try_catch
    (let* args := parseArgs argv in
     act (record (Logged ("Downloading " +:+ url args))) ;;
     download (url args) (output args) 0 ;;
     act (record (Logged ("Saved to " +:+ output args))))%run
    (fun error =>
       act (record (LoggedError ("Error: " +:+ error_message error))) ;;
       exit 1%Z)%run.

End WithPlatform.

End Cli.

(** ** The runtime's [fetch] over a network *)

Module Fetch.

Section WithPlatform.
  Context `{Platform}.

  Variable net : Network.

Definition requestImpl_for (target : URL) : RequestImpl :=
  if String.eqb (protocol target) "https:" then httpsRequest else httpRequest.

(** [fetch] in its default redirect mode (follow): a response with a
    redirect status and a [Location] header that is not empty is
    followed, the redirect target being the header's value parsed
    against the current URL; [budget] redirects may still be followed.
    Any other response is the result, with the URL it came from. *)
Fixpoint follow (budget : nat) (current : URL) : Plugin.FetchResult :=
  match net (requestImpl_for current) current with
  | RequestFailed reason => Plugin.FetchRejected reason
  | Responded response =>
      let status := Js.nullish (statusCode response) 0 in
      let final :=
        Plugin.FetchResolved
          {| Plugin.status := status;
             Plugin.response_url := URL_toString current;
             Plugin.response_body := body response |} in
      if Js.includesZ [301; 302; 303; 307; 308]%Z status then
        match headers_location response with
        | None => final
        | Some location =>
            if Js.truthy location then
              match URL_parse_base location current with
              | None => Plugin.FetchRejected "invalid redirect target"
              | Some next =>
                  match budget with
                  | O => Plugin.FetchRejected "redirect count exceeded"
                  | S budget' => follow budget' next
                  end
              end
            else final
        end
      else final
  end.

(** The standard's bound on the redirects of one fetch. *)
Definition fetch (target : URL) : Plugin.FetchResult := follow 20 target.

End WithPlatform.

End Fetch.

(** ** A reference platform

    A model of the runtime functions of [Platform], used to evaluate the
    scenarios of the specification.  It follows the WHATWG URL parser and
    the POSIX flavour of [node:path] on ASCII input of the shape
    [scheme://host/path?query#fragment], with an absolute working
    directory; user information, port defaulting, percent-encoding,
    backslashes, white space and internationalised hosts are outside
    it. *)

Module Reference.

Definition is_alpha (c : ascii) : bool :=
  let n := nat_of_ascii c in
  ((65 <=? n) && (n <=? 90) || (97 <=? n) && (n <=? 122))%nat.

Definition is_digit (c : ascii) : bool :=
  let n := nat_of_ascii c in ((48 <=? n) && (n <=? 57))%nat.

Definition is_scheme_char (c : ascii) : bool :=
  is_alpha c || is_digit c || Ascii.eqb c "+" || Ascii.eqb c "-" || Ascii.eqb c ".".

Definition lower (c : ascii) : ascii :=
  let n := nat_of_ascii c in
  if ((65 <=? n) && (n <=? 90))%nat then ascii_of_nat (n + 32) else c.

Fixpoint lowercase (s : string) : string :=
  match s with
  | EmptyString => EmptyString
  | String c rest => String (lower c) (lowercase rest)
  end.

(** The longest prefix of [s] without a character satisfying [stop],
    and the rest of [s]. *)
Fixpoint break (stop : ascii -> bool) (s : string) : string * string :=
  match s with
  | EmptyString => (EmptyString, EmptyString)
  | String c rest =>
      if stop c then (EmptyString, s)
      else let (before, after) := break stop rest in (String c before, after)
  end.

Fixpoint drop_while (p : ascii -> bool) (s : string) : string :=
  match s with
  | EmptyString => EmptyString
  | String c rest => if p c then drop_while p rest else s
  end.

Definition starts_with (c : ascii) (s : string) : bool :=
  match s with
  | String c' _ => Ascii.eqb c c'
  | EmptyString => false
  end.

Definition tail (s : string) : string :=
  match s with
  | String _ rest => rest
  | EmptyString => EmptyString
  end.

Fixpoint join (sep : string) (pieces : list string) : string :=
  match pieces with
  | [] => EmptyString
  | [piece] => piece
  | piece :: rest => piece +:+ sep +:+ join sep rest
  end.

(** [scheme:rest], with the scheme in lower case. *)
Definition parse_scheme (input : string) : option (string * string) :=
  match input with
  | String c _ =>
      if is_alpha c then
        let (scheme, rest) := break (fun c => negb (is_scheme_char c)) input in
        if starts_with ":" rest then Some (lowercase scheme, tail rest) else None
      else None
  | EmptyString => None
  end.

Definition is_special (scheme : string) : bool :=
  Js.includes ["http"; "https"; "ftp"; "ws"; "wss"] scheme.

(** Removal of dot segments, as the path state of the URL parser does
    it; [seen] holds the segments kept so far, last first. *)
Fixpoint dot_segments (segments seen : list string) : list string :=
  match segments with
  | [] => rev seen
  | [segment] =>
      if String.eqb segment ".." then rev (EmptyString :: List.tl seen)
      else if String.eqb segment "." then rev (EmptyString :: seen)
      else rev (segment :: seen)
  | segment :: rest =>
      if String.eqb segment ".." then dot_segments rest (List.tl seen)
      else if String.eqb segment "." then dot_segments rest seen
      else dot_segments rest (segment :: seen)
  end.

Definition normalize_path (path : string) : string :=
  let segments := Js.split "/" (if starts_with "/" path then tail path else path) in
  "/" +:+ join "/" (dot_segments segments []).

Definition is_query_or_fragment (c : ascii) : bool :=
  Ascii.eqb c "?" || Ascii.eqb c "#".

(** [path?query#fragment] taken apart. *)
Definition path_query_fragment (s : string) : string * option string * option string :=
  let (path, rest) := break is_query_or_fragment s in
  let (query, rest) :=
    if starts_with "?" rest then
      let (q, rest') := break (Ascii.eqb "#") (tail rest) in (Some q, rest')
    else (None, rest) in
  let fragment := if starts_with "#" rest then Some (tail rest) else None in
  (path, query, fragment).

Definition is_authority_end (c : ascii) : bool :=
  Ascii.eqb c "/" || is_query_or_fragment c.

Definition parse (input : string) : option URL :=
  match parse_scheme input with
  | None => None
  | Some (scheme, rest) =>
      if is_special scheme then
        let (authority, rest) := break is_authority_end (drop_while (Ascii.eqb "/") rest) in
        let '(path, query, fragment) := path_query_fragment rest in
        if String.eqb authority "" then None
        else Some {| protocol := scheme +:+ ":"; host := lowercase authority;
                     pathname := normalize_path path;
                     query := query; fragment := fragment |}
      else
        let '(path, query, fragment) := path_query_fragment rest in
        Some {| protocol := scheme +:+ ":"; host := "";
                pathname := path; query := query; fragment := fragment |}
  end.

Definition toString (u : URL) : string :=
  protocol u
  +:+ (if String.eqb (host u) "" then "" else "//" +:+ host u)
  +:+ pathname u
  +:+ match query u with Some q => "?" +:+ q | None => "" end
  +:+ match fragment u with Some f => "#" +:+ f | None => "" end.

(** The path of [base] up to and including its last slash. *)
Definition directory_of (path : string) : string :=
  join "/" (removelast (Js.split "/" path)) +:+ "/".

Definition parse_base (input : string) (base : URL) : option URL :=
  match parse_scheme input with
  | Some _ => parse input
  | None =>
      match input with
      | String "/" (String "/" _) => parse (protocol base +:+ input)
      | _ =>
          let '(path, q, f) := path_query_fragment input in
          if String.eqb path "" then
            Some {| protocol := protocol base; host := host base;
                    pathname := pathname base;
                    query := match q with Some _ => q | None => query base end;
                    fragment := f |}
          else
            let full :=
              if starts_with "/" path then path
              else directory_of (pathname base) +:+ path in
            Some {| protocol := protocol base; host := host base;
                    pathname := normalize_path full;
                    query := q; fragment := f |}
      end
  end.

Definition isAbsolute (p : string) : bool := starts_with "/" p.

(** [resolve]: the arguments are joined from the right until an
    absolute one is met, the working directory standing before them. *)
Fixpoint resolve_join (paths_from_right : list string) (resolved : string) : string :=
  match paths_from_right with
  | [] => resolved
  | p :: rest =>
      if String.eqb p "" then resolve_join rest resolved
      else if isAbsolute p then p +:+ "/" +:+ resolved
      else resolve_join rest (p +:+ "/" +:+ resolved)
  end.

(** [normalizeString] for an absolute path: empty and single-dot
    segments go, a double dot removes the segment before it. *)
Fixpoint normalize_segments (segments seen : list string) : list string :=
  match segments with
  | [] => rev seen
  | segment :: rest =>
      if String.eqb segment "" || String.eqb segment "." then normalize_segments rest seen
      else if String.eqb segment ".." then normalize_segments rest (List.tl seen)
      else normalize_segments rest (segment :: seen)
  end.

Definition resolve (cwd : string) (paths : list string) : string :=
  "/" +:+ join "/" (normalize_segments (Js.split "/" (resolve_join (rev paths ++ [cwd]) "")) []).

Definition is_slash (c : ascii) : bool := Ascii.eqb c "/".

Fixpoint skip_while (p : ascii -> bool) (cs : list ascii) : list ascii :=
  match cs with
  | [] => []
  | c :: rest => if p c then skip_while p rest else cs
  end.

(** [dirname]: the path up to the last slash that follows a non-slash
    character, scanning from the right and never past the first
    character. *)
Definition dirname (p : string) : string :=
  match list_ascii_of_string p with
  | [] => "."
  | first :: others =>
      let scanned :=
        skip_while (fun c => negb (is_slash c)) (skip_while is_slash (rev others)) in
      match scanned with
      | [] => if is_slash first then "/" else "."
      | _ :: before =>
          if is_slash first && Nat.eqb (length scanned) 1 then "//"
          else string_of_list_ascii (first :: rev before)
      end
  end.

(** The reference platform with working directory [cwd]. *)
Definition platform (cwd : string) : Platform :=
  {| URL_parse := parse;
     URL_parse_base := parse_base;
     URL_toString := toString;
     path_isAbsolute := isAbsolute;
     path_resolve := resolve cwd;
     path_dirname := dirname;
     process_cwd := cwd |}.

End Reference.

(** ** Notions of the specification *)

Module Spec.

(** *** The last non-empty segment of a path *)

Fixpoint only_slashes (s : string) : bool :=
  match s with
  | EmptyString => true
  | String c rest => Ascii.eqb c "/" && only_slashes rest
  end.

Fixpoint has_slash (s : string) : bool :=
  match s with
  | EmptyString => false
  | String c rest => Ascii.eqb c "/" || has_slash rest
  end.

(** [LastSegment path o]: [o] is the last non-empty segment of [path],
    the segments of a path being what stands between its slashes; [o]
    is [None] when the path has no character other than slashes. *)
Inductive LastSegment (path : string) : option string -> Prop :=
| no_segment :
    only_slashes path = true ->
    LastSegment path None
| last_segment (before segment after : string) :
    path = before +:+ segment +:+ after ->
    segment <> "" ->
    has_slash segment = false ->
    (before = "" \/ exists b, before = b +:+ "/") ->
    only_slashes after = true ->
    LastSegment path (Some segment).

(** The file name the specification derives from a path. *)
Definition filename_of (segment : option string) : string :=
  match segment with
  | Some name => name
  | None => "downloaded-file"
  end.

(** *** Redirect chains *)

Section Chains.
  Context `{Platform}.

  Variable net : Network.

(** The request for [current] is answered by a redirect that leads to
    [next]: a redirect status with a [Location] value that [download]
    takes for one, and [next] is that value resolved against [current].
    The serialisation of [next], which is what [download] passes on,
    reads back as [next]. *)
Definition hop (current next : URL) : Prop :=
  exists response,
    net (Cli.requestImpl_for current) current = Responded response /\
    Cli.is_redirect response = true /\
    URL_parse_base (Js.narrowed (headers_location response)) current = Some next /\
    URL_parse (URL_toString next) = Some next.

(** The URLs visited, in order; the length of the chain is the
    number of its hops. *)
Inductive RedirectChain : list URL -> Prop :=
| chain_start (u : URL) : RedirectChain [u]
| chain_hop (u v : URL) (rest : list URL) :
    hop u v -> RedirectChain (v :: rest) -> RedirectChain (u :: v :: rest).

Definition chain_length (visited : list URL) : nat := length visited - 1.

(** A final response with a success status and a body that arrives
    completely. *)
Definition succeeds_with (target : URL) (data : list byte) : Prop :=
  exists response,
    net (Cli.requestImpl_for target) target = Responded response /\
    (200 <= Js.nullish (statusCode response) 0 < 300)%Z /\
    body response = BodyComplete data.

(** The world after requests for [visited] were issued in order. *)
Definition requested (visited : list URL) (w : World) : World :=
  {| files := files w; dirs := dirs w;
     events := events w ++ map (fun u => Requested (Cli.requestImpl_for u) u) visited |}.

End Chains.

End Spec.

(** ** A file system that can refuse

    [fs_mkdir] and [fs_write] are the two operations on a file system
    that accepts whatever it is asked.  A real one refuses some
    requests: a directory cannot be made where a file stands, a
    directory cannot be opened for writing, and permissions, quotas and
    limits of the disk stand in the way of others.  What the files and
    directories of the world decide is computed from them; what they do
    not decide is given with the environment ([Faults]). *)

Module Disk.

(** What the disk refuses whatever the files and directories are: for
    a directory to make, the reason and how many of the directories
    missing on the way were made before the refusal; for a file to
    write, the reason and, if the file was opened at all, how many bytes
    went into it before. *)
Record Faults := mkFaults {
  mkdir_fault : string -> option (string * nat);
  write_fault : string -> option (string * option nat)
}.

(** A disk with room and permissions for everything. *)
Definition willing : Faults :=
  {| mkdir_fault := fun _ => None; write_fault := fun _ => None |}.

(** A request is carried out, or refused with an error. *)
Inductive Attempt :=
| Accepted (w : World)
| Refused (e : Error) (w : World).

Definition is_file (w : World) (path : string) : bool :=
  bool_decide (is_Some (files w !! path)).

Definition is_dir (w : World) (path : string) : bool :=
  bool_decide (path ∈ dirs w).

(** The directories on the way to [dir], outermost first and [dir]
    itself last (the root is there always and is left out): for
    [/work/deep/er] they are [/work], [/work/deep] and [/work/deep/er]. *)
Definition ancestors (dir : string) : list string :=
  let segments := List.filter Js.truthy (Js.split "/" dir) in
  let root := if Reference.starts_with "/" dir then "/" else "" in
  map (fun count => root +:+ Reference.join "/" (take count segments))
      (seq 1 (length segments)).

(** The world after [dir] was made with the directories on the way. *)
Definition made (dir : string) (w : World) : World :=
  {| files := files w;
     dirs := {[dir]} ∪ list_to_set (ancestors dir) ∪ dirs w;
     events := events w ++ [MadeDir dir] |}.

(** The world after the first [count] of the missing directories on the
    way to [dir] were made. *)
Definition partly_made (dir : string) (count : nat) (w : World) : World :=
  let missing := List.filter (fun a => negb (is_dir w a)) (ancestors dir) in
  {| files := files w;
     dirs := list_to_set (take count missing) ∪ dirs w;
     events := events w |}.

Definition EEXIST (dir : string) : Error :=
  SystemError ("EEXIST: file already exists, mkdir '" +:+ dir +:+ "'").

Definition ENOTDIR (dir : string) : Error :=
  SystemError ("ENOTDIR: not a directory, mkdir '" +:+ dir +:+ "'").

Definition EISDIR (path : string) : Error :=
  SystemError ("EISDIR: illegal operation on a directory, open '" +:+ path +:+ "'").

(** [mkdir(dir, { recursive: true })]: refused where [dir] or a
    directory on the way to it is a file, and where the disk refuses;
    otherwise [dir] and the directories on the way exist afterwards. *)
Definition mkdir (faults : Faults) (dir : string) (w : World) : Attempt :=
  if is_file w dir then Refused (EEXIST dir) w
  else if existsb (is_file w) (ancestors dir) then Refused (ENOTDIR dir) w
  else
    match mkdir_fault faults dir with
    | Some (reason, count) => Refused (SystemError reason) (partly_made dir count w)
    | None => Accepted (made dir w)
    end.

(** Writing [data] to the file at [path], created or truncated: refused
    where [path] is a directory, and where the disk refuses, the file
    then holding what went into it before; otherwise the file holds
    [data] afterwards. *)
Definition write (faults : Faults) (path : string) (data : list byte) (w : World)
  : Attempt :=
  if is_dir w path then Refused (EISDIR path) w
  else
    match write_fault faults path with
    | Some (reason, Some count) =>
        Refused (SystemError reason) (fs_write path (take count data) w)
    | Some (reason, None) => Refused (SystemError reason) w
    | None => Accepted (fs_write path data w)
    end.

(** The disk makes [dir] in [w] and then takes a file at [path]. *)
Definition accepts (faults : Faults) (w : World) (dir path : string) : bool :=
  negb (is_file w dir)
  && negb (existsb (is_file w) (ancestors dir))
  && negb (is_dir (made dir w) path)
  && match mkdir_fault faults dir, write_fault faults path with
     | None, None => true
     | _, _ => false
     end.

End Disk.

(** ** The two programs on a file system that can refuse

    [execute], [download] and [main] once more, with every call of the
    file system in the place and in the form the sources have it, and
    with what a refusal leads to there. *)

Module OnDisk.

Section WithPlatform.
  Context `{Platform}.

  Variable faults : Disk.Faults.
  Variable fetch : URL -> Plugin.FetchResult.
  Variable net : Network.

(** [await] of a promise of the file system: a refusal is thrown. *)
Definition await (attempt : World -> Disk.Attempt) : Run unit :=
  fun w =>
    match attempt w with
    | Disk.Accepted w' => (Returned tt, w')
    | Disk.Refused e w' => (Thrown e, w')
    end.

(** [execute] of [src/download-file.ts]. *)
Definition execute (args : Plugin.Args) (context : Plugin.ToolContext)
  : Run Plugin.TransferResult :=
  (let* parsedUrl := new_URL (Plugin.arg_url args) in
   if negb (Js.includes ["http:"; "https:"] (protocol parsedUrl)) then
     throw UnsupportedScheme
   else
     let outputPath :=
       Plugin.resolveDestination parsedUrl (Plugin.arg_outputPath args)
         (Plugin.directory context) in
     let* response := Plugin.await_fetch fetch parsedUrl in
     if negb (Plugin.ok response) then throw (DownloadFailed (Plugin.status response))
     else
       let* arrayBuffer := Plugin.arrayBuffer response in
       await (Disk.mkdir faults (path_dirname outputPath)) ;;
       await (Disk.write faults outputPath arrayBuffer) ;;
       ret {| Plugin.url := URL_toString parsedUrl;
              Plugin.outputPath := outputPath;
              Plugin.bytesWritten := length arrayBuffer |})%run.

(** [download] of the command-line program.  [mkdirSync] is called
    inside the response callback, so what it throws escapes the promise;
    an error of the file stream rejects the promise, as an error of the
    response does.  The promise settles once: where the disk refuses
    the file and the body breaks off as well, the refusal of the disk
    is taken to come first. *)
Equations? download (url output : string) (redirects : nat) (w : World)
  : Outcome unit * World by wf (Cli.MAX_REDIRECTS - redirects)%nat lt :=
download url output redirects w :=
  match URL_parse url with
  | None => (Thrown (TypeError "Invalid URL"), w)
  | Some parsed =>
      let requestImpl := Cli.requestImpl_for parsed in
      let w := record (Requested requestImpl parsed) w in
      match net requestImpl parsed with
      | RequestFailed requestError => (Thrown (TransportError requestError), w)
      | Responded response =>
          let statusCode := Js.nullish (statusCode response) 0 in
          let location := headers_location response in
          if Cli.is_redirect response then
            match decide (Cli.MAX_REDIRECTS ≤ redirects)%nat with
            | left _ => (Thrown Cli.TooManyRedirects, w)
            | right _ =>
                match URL_parse_base (Js.narrowed location) parsed with
                | None => (Uncaught (TypeError "Invalid URL"), w)
                | Some next =>
                    let nextUrl := URL_toString next in
                    download nextUrl output (redirects + 1) w
                end
            end
          else if (statusCode <? 200)%Z || (300 <=? statusCode)%Z then
            (Thrown (DownloadFailed statusCode), w)
          else
            match Disk.mkdir faults (path_dirname output) w with
            | Disk.Refused e w => (Uncaught e, w)
            | Disk.Accepted w =>
                (* createWriteStream(output); response.pipe(fileStream) *)
                match body response with
                | BodyComplete data =>
                    match Disk.write faults output data w with
                    | Disk.Accepted w => (Returned tt, w)
                    | Disk.Refused streamError w => (Thrown streamError, w)
                    end
                | BodyAborted received responseError =>
                    match Disk.write faults output received w with
                    | Disk.Accepted w => (Thrown (TransportError responseError), w)
                    | Disk.Refused streamError w => (Thrown streamError, w)
                    end
                end
            end
      end
  end.
Proof. lia. Qed.

Definition main (argv : list string) : Run unit :=
  try_catch
    (let* args := Cli.parseArgs argv in
     act (record (Logged ("Downloading " +:+ Cli.url args))) ;;
     download (Cli.url args) (Cli.output args) 0 ;;
     act (record (Logged ("Saved to " +:+ Cli.output args))))%run
    (fun error =>
       act (record (LoggedError ("Error: " +:+ error_message error))) ;;
       exit 1%Z)%run.

End WithPlatform.

End OnDisk.

(** ** The scenarios of the specification

    A server [example.com] on the reference platform: a report that has
    moved, a path that redirects to itself, a countdown of redirects
    ([/r6] to [/r5] and so on to [/r1], which leads to the report), a
    missing page, a redirect without a target, one with an empty target,
    and a download that breaks off. *)

Module Scenario.

Definition reference_platform : Platform := Reference.platform "/work".

Definition at_path (path : string) : URL :=
  {| protocol := "https:"; host := "example.com"; pathname := path;
     query := None; fragment := None |}.

Definition report : URL := at_path "/files/report.pdf".

Definition moved : URL := at_path "/v2/report.pdf".

Definition content : list byte := ["%"; "P"; "D"; "F"]%byte.

Definition answer (status : Z) (location : option string) (stream : BodyStream)
  : RequestResult :=
  Responded {| statusCode := Some status; headers_location := location; body := stream |}.

Definition server (path : string) : RequestResult :=
  if String.eqb path "/files/report.pdf" then
    answer 302 (Some "/v2/report.pdf") (BodyComplete [])
  else if String.eqb path "/v2/report.pdf" then answer 200 None (BodyComplete content)
  else if String.eqb path "/loop" then answer 302 (Some "/loop") (BodyComplete [])
  else if String.eqb path "/r6" then answer 301 (Some "r5") (BodyComplete [])
  else if String.eqb path "/r5" then answer 302 (Some "r4") (BodyComplete [])
  else if String.eqb path "/r4" then answer 303 (Some "r3") (BodyComplete [])
  else if String.eqb path "/r3" then answer 307 (Some "r2") (BodyComplete [])
  else if String.eqb path "/r2" then answer 308 (Some "r1") (BodyComplete [])
  else if String.eqb path "/r1" then answer 302 (Some "v2/report.pdf") (BodyComplete [])
  else if String.eqb path "/blank" then answer 302 (Some "") (BodyComplete [])
  else if String.eqb path "/missing" then answer 404 None (BodyComplete [])
  else if String.eqb path "/bare" then answer 301 None (BodyComplete [])
  else if String.eqb path "/cut" then
    answer 200 None (BodyAborted ["%"; "P"]%byte "ECONNRESET")
  else answer 404 None (BodyComplete []).

Definition net : Network :=
  fun _ target =>
    if String.eqb (host target) "example.com" then server (pathname target)
    else RequestFailed "ENOTFOUND".

Definition empty : World := {| files := ∅; dirs := ∅; events := [] |}.

Definition tool_args (url : string) : Plugin.Args :=
  {| Plugin.arg_url := url; Plugin.arg_outputPath := None |}.

Definition tool_context : Plugin.ToolContext := {| Plugin.directory := "/base" |}.

End Scenario.

(** ** Further scenarios

    The server of the scenarios, with two more paths: a redirect whose
    target is no URL, and a redirect that leaves the host. *)

Module MoreScenarios.

Definition net : Network :=
  fun impl target =>
    if String.eqb (host target) "example.com" then
      if String.eqb (pathname target) "/nowhere" then
        Scenario.answer 302 (Some "http://") (BodyComplete [])
      else if String.eqb (pathname target) "/away" then
        Scenario.answer 301 (Some "https://elsewhere.test/file") (BodyComplete [])
      else Scenario.net impl target
    else Scenario.net impl target.

Definition elsewhere : URL :=
  {| protocol := "https:"; host := "elsewhere.test"; pathname := "/file";
     query := None; fragment := None |}.

(** A world in which files exist already. *)
Definition furnished : World :=
  {| files := <["/work/report.pdf" := ["o"; "l"; "d"]%byte]>
                (<["/work/notes.txt" := ["h"; "i"]%byte]> ∅);
     dirs := {["/work"]};
     events := [] |}.

End MoreScenarios.

(** ** Scenarios of the file system

    A disk without room for another byte, and one on which nothing may
    be made under [/sealed]. *)

Module DiskScenarios.

Definition full : Disk.Faults :=
  {| Disk.mkdir_fault := fun _ => None;
     Disk.write_fault := fun _ => Some ("ENOSPC: no space left on device, write", Some 0%nat) |}.

Definition sealed : Disk.Faults :=
  {| Disk.mkdir_fault :=
       fun dir =>
         if String.prefix "/sealed" dir
         then Some ("EACCES: permission denied, mkdir '" +:+ dir +:+ "'", 0%nat)
         else None;
     Disk.write_fault := fun _ => None |}.

End DiskScenarios.

(** * Properties *)

(** ** Splitting a path into segments *)

Section SplitFacts.

Lemma split_nonempty sep s : Js.split sep s <> [].
Proof.
  destruct s as [|c rest]; simpl; [discriminate|].
  destruct (Ascii.eqb c sep); [discriminate|].
  destruct (Js.split sep rest); discriminate.
Qed.

Lemma append_cons (c : ascii) (x y : string) :
  String c x +:+ y = String c (x +:+ y).
Proof. reflexivity. Qed.

Lemma append_empty_l (s : string) : "" +:+ s = s.
Proof. reflexivity. Qed.

Lemma append_empty_r (s : string) : s +:+ "" = s.
Proof.
  induction s as [|c s IH]; [reflexivity|].
  rewrite append_cons. f_equal. exact IH.
Qed.

Lemma append_assoc (x y z : string) : (x +:+ y) +:+ z = x +:+ (y +:+ z).
Proof.
  induction x as [|c x IH]; [reflexivity|].
  rewrite !append_cons. f_equal. exact IH.
Qed.

(** The pieces of [x/y] are the pieces of [x] followed by those of [y]. *)
Lemma split_app_sep sep x y :
  Js.split sep (x +:+ String sep y) = (Js.split sep x ++ Js.split sep y)%list.
Proof.
  induction x as [|c x IH]; [|rewrite append_cons]; simpl.
  - rewrite Ascii.eqb_refl. reflexivity.
  - destruct (Ascii.eqb c sep); [now rewrite IH|].
    rewrite IH. pose proof (split_nonempty sep x) as Hx.
    destruct (Js.split sep x); [contradiction|reflexivity].
Qed.

Lemma split_no_slash s : Spec.has_slash s = false -> Js.split "/" s = [s].
Proof.
  induction s as [|c s IH]; simpl; [reflexivity|].
  intros Hs. apply orb_false_iff in Hs as [Hc Hs].
  rewrite Hc, (IH Hs). reflexivity.
Qed.

Lemma split_only_slashes s :
  Spec.only_slashes s = true -> List.filter Js.truthy (Js.split "/" s) = [].
Proof.
  induction s as [|c s IH]; simpl; [reflexivity|].
  intros Hs. apply andb_true_iff in Hs as [Hc Hs].
  rewrite Hc. simpl. exact (IH Hs).
Qed.

Lemma truthy_nonempty s : s <> "" -> Js.truthy s = true.
Proof.
  intros Hs. unfold Js.truthy. apply negb_true_iff, String.eqb_neq. exact Hs.
Qed.

(** The segments kept of a segment followed by slashes. *)
Lemma split_segment_slashes segment after :
  segment <> "" -> Spec.has_slash segment = false -> Spec.only_slashes after = true ->
  List.filter Js.truthy (Js.split "/" (segment +:+ after)) = [segment].
Proof.
  intros Hne Hseg Hafter. destruct after as [|c after].
  - rewrite append_empty_r, (split_no_slash _ Hseg). simpl.
    now rewrite (truthy_nonempty _ Hne).
  - simpl in Hafter. apply andb_true_iff in Hafter as [Hc Hafter].
    apply Ascii.eqb_eq in Hc. subst c.
    rewrite split_app_sep, List.filter_app, (split_no_slash _ Hseg),
      (split_only_slashes _ Hafter). simpl.
    now rewrite (truthy_nonempty _ Hne).
Qed.

(** What [split], [filter(Boolean)] and [pop] compute is the last
    non-empty segment. *)
Lemma pop_segments path o :
  Spec.LastSegment path o ->
  Js.pop (List.filter Js.truthy (Js.split "/" path)) = o.
Proof.
  intros [Hslashes | before segment after -> Hne Hseg Hbefore Hafter].
  - now rewrite (split_only_slashes _ Hslashes).
  - pose proof (split_segment_slashes _ _ Hne Hseg Hafter) as Hlast.
    destruct Hbefore as [-> | [b ->]].
    + now rewrite append_empty_l, Hlast.
    + rewrite append_assoc, append_cons, append_empty_l.
      rewrite split_app_sep, List.filter_app, Hlast.
      unfold Js.pop. apply last_snoc.
Qed.

(** A path has one last non-empty segment at most. *)
Lemma LastSegment_functional path o1 o2 :
  Spec.LastSegment path o1 -> Spec.LastSegment path o2 -> o1 = o2.
Proof.
  intros H1 H2. rewrite <- (pop_segments _ _ H1). apply pop_segments. exact H2.
Qed.

(** Every path has a last non-empty segment, or none. *)
Lemma LastSegment_total path : exists o, Spec.LastSegment path o.
Proof.
  induction path as [|c path [o IH]].
  - exists None. now constructor.
  - destruct IH as [Hslashes | before segment after -> Hne Hseg Hbefore Hafter].
    + destruct (Ascii.eqb c "/") eqn:Hc.
      * exists None. constructor. simpl. now rewrite Hc.
      * exists (Some (String c "")).
        apply (Spec.last_segment _ "" (String c "") path);
          [reflexivity | discriminate | simpl; now rewrite Hc | now left | exact Hslashes].
    + destruct Hbefore as [-> | [b ->]].
      * destruct (Ascii.eqb c "/") eqn:Hc.
        -- exists (Some segment).
           apply Ascii.eqb_eq in Hc. subst c.
           apply (Spec.last_segment _ "/" segment after);
             [reflexivity | exact Hne | exact Hseg | right; now exists "" | exact Hafter].
        -- exists (Some (String c segment)).
           apply (Spec.last_segment _ "" (String c segment) after);
             [reflexivity | discriminate | simpl; now rewrite Hc | now left | exact Hafter].
      * exists (Some segment).
        apply (Spec.last_segment _ (String c b +:+ "/") segment after);
          [reflexivity | exact Hne | exact Hseg | right; now exists (String c b) | exact Hafter].
Qed.

(** The segment is never empty, so the fallback of [||] is taken
    exactly when there is no segment. *)
Lemma or_else_segment path o :
  Spec.LastSegment path o ->
  Js.or_else o "downloaded-file" = Spec.filename_of o.
Proof.
  intros [Hslashes | before segment after _ Hne _ _ _]; simpl; [reflexivity|].
  now rewrite (truthy_nonempty _ Hne).
Qed.

End SplitFacts.

(** ** Destination resolution *)

Section Destination.
  Context `{Platform}.

(** The two copies of [inferFilenameFromUrl] compute the same name. *)
Lemma inferFilenameFromUrl_same (u : URL) :
  Cli.inferFilenameFromUrl u = Plugin.inferFilenameFromUrl u.
Proof. reflexivity. Qed.

Lemma inferFilenameFromUrl_segment (u : URL) (segment : option string) :
  Spec.LastSegment (pathname u) segment ->
  Plugin.inferFilenameFromUrl u = Spec.filename_of segment.
Proof.
  intros Hsegment. unfold Plugin.inferFilenameFromUrl.
  rewrite (pop_segments _ _ Hsegment). now apply or_else_segment with (path := pathname u).
Qed.

(** C6.  With the destination path omitted, the destination is the base
  directory resolved with the last non-empty segment of the path of
  the URL (the segments being what stands between slashes, empty ones
  discarded), and with the fallback name [downloaded-file] when the
  path has no non-empty segment.  The plugin resolves against the
  directory of its context, the command-line program against the
  working directory. *)
Theorem destination_from_last_segment
    (u : URL) (baseDirectory : string) (segment : option string) :
  Spec.LastSegment (pathname u) segment ->
  Plugin.resolveDestination u None baseDirectory
    = path_resolve [baseDirectory; Spec.filename_of segment]
  /\ Cli.resolveOutput u None
    = path_resolve [process_cwd; Spec.filename_of segment].
Proof.
  intros Hsegment. unfold Plugin.resolveDestination, Cli.resolveOutput. simpl.
  pose proof (inferFilenameFromUrl_segment _ _ Hsegment) as Hname.
  split; [now rewrite Hname|].
  now rewrite inferFilenameFromUrl_same, Hname.
Qed.

(** C10.  The inferred file name, and with it the destination when no
  destination path is given, depends on the path of the URL only:
  two URLs with the same path (whatever their query, fragment, host
  or scheme) resolve to the same destination. *)
Theorem destination_depends_on_pathname_only (u1 u2 : URL) (baseDirectory : string) :
  pathname u1 = pathname u2 ->
  Plugin.inferFilenameFromUrl u1 = Plugin.inferFilenameFromUrl u2
  /\ Cli.inferFilenameFromUrl u1 = Cli.inferFilenameFromUrl u2
  /\ Plugin.resolveDestination u1 None baseDirectory
     = Plugin.resolveDestination u2 None baseDirectory
  /\ Cli.resolveOutput u1 None = Cli.resolveOutput u2 None.
Proof.
  intros Hpath.
  unfold Plugin.resolveDestination, Cli.resolveOutput,
    Cli.inferFilenameFromUrl, Plugin.inferFilenameFromUrl.
  rewrite Hpath. repeat split; reflexivity.
Qed.

End Destination.

(** ** The command-line [download] *)

Section Download.
  Context `{Platform}.
  Variable net : Network.


Lemma success_status_not_redirect (status : Z) :
  (200 <= status < 300)%Z ->
  Js.includesZ [301; 302; 303; 307; 308]%Z status = false.
Proof.
  intros Hstatus. unfold Js.includesZ. simpl.
  repeat (rewrite (proj2 (Z.eqb_neq status _)); [|lia]). reflexivity.
Qed.

Lemma requested_cons (u : URL) (visited : list URL) (w : World) :
  Spec.requested visited (record (Requested (Cli.requestImpl_for u) u) w)
  = Spec.requested (u :: visited) w.
Proof.
  unfold Spec.requested, record. simpl. f_equal.
  now rewrite <- List.app_assoc.
Qed.

Lemma requested_nil (w : World) : Spec.requested [] w = w.
Proof.
  destruct w as [fs ds es]. unfold Spec.requested. simpl.
  now rewrite List.app_nil_r.
Qed.

(** A response that is a redirect, below the cap and with a target that
  parses, makes [download] continue at the serialised target with the
  counter incremented. *)
Lemma download_follow (url output : string) (redirects : nat) (w : World)
    (parsed : URL) (response : IncomingMessage) (next : URL) :
  URL_parse url = Some parsed ->
  net (Cli.requestImpl_for parsed) parsed = Responded response ->
  Cli.is_redirect response = true ->
  (redirects < Cli.MAX_REDIRECTS)%nat ->
  URL_parse_base (Js.narrowed (headers_location response)) parsed = Some next ->
  Cli.download net url output redirects w
  = Cli.download net (URL_toString next) output (redirects + 1)
      (record (Requested (Cli.requestImpl_for parsed) parsed) w).
Proof.
  intros Hparse Hnet Hredirect Hcap Hnext.
  rewrite Cli.download_equation_1 at 1.
  rewrite Hparse. simpl. rewrite Hnet, Hredirect.
  destruct (decide (Cli.MAX_REDIRECTS <= redirects)%nat) as [Hge|_]; [lia|].
  now rewrite Hnext.
Qed.

(** A redirect met when the counter has reached the cap is not followed. *)
Lemma download_cap (url output : string) (redirects : nat) (w : World)
    (parsed : URL) (response : IncomingMessage) :
  URL_parse url = Some parsed ->
  net (Cli.requestImpl_for parsed) parsed = Responded response ->
  Cli.is_redirect response = true ->
  (Cli.MAX_REDIRECTS <= redirects)%nat ->
  Cli.download net url output redirects w
  = (Thrown Cli.TooManyRedirects, record (Requested (Cli.requestImpl_for parsed) parsed) w).
Proof.
  intros Hparse Hnet Hredirect Hcap.
  rewrite Cli.download_equation_1.
  rewrite Hparse. simpl. rewrite Hnet, Hredirect.
  destruct (decide (Cli.MAX_REDIRECTS <= redirects)%nat) as [_|Hlt]; [reflexivity|lia].
Qed.

(** A response that is not a redirect is settled by its status. *)
Lemma download_final (url output : string) (redirects : nat) (w : World)
    (parsed : URL) (response : IncomingMessage) :
  URL_parse url = Some parsed ->
  net (Cli.requestImpl_for parsed) parsed = Responded response ->
  Cli.is_redirect response = false ->
  Cli.download net url output redirects w
  = let statusCode := Js.nullish (statusCode response) 0 in
    let w := record (Requested (Cli.requestImpl_for parsed) parsed) w in
    if ((statusCode <? 200) || (300 <=? statusCode))%Z then
      (Thrown (DownloadFailed statusCode), w)
    else
      match body response with
      | BodyComplete data =>
          (Returned tt, fs_write output data (fs_mkdir (path_dirname output) w))
      | BodyAborted received reason =>
          (Thrown (TransportError reason),
           fs_write output received (fs_mkdir (path_dirname output) w))
      end.
Proof.
  intros Hparse Hnet Hredirect.
  rewrite Cli.download_equation_1.
  rewrite Hparse. simpl. now rewrite Hnet, Hredirect.
Qed.

Lemma redirect_status_not_success (status : Z) :
  Js.includesZ [301; 302; 303; 307; 308]%Z status = true ->
  ((status <? 200) || (300 <=? status))%Z = true.
Proof.
  unfold Js.includesZ. simpl. intros Hin.
  repeat (apply orb_true_iff in Hin as [Hin|Hin];
          [apply Z.eqb_eq in Hin; subst status; reflexivity|]).
  discriminate.
Qed.

(** [download] only adds to the events of the world, and the requests
    it adds are bounded by what the counter leaves of the cap. *)
Lemma download_events_grow (k : nat) :
  forall (url output : string) (redirects : nat) (w : World),
    (Cli.MAX_REDIRECTS - redirects <= k)%nat ->
    exists later,
      events (Cli.download net url output redirects w).2 = (events w ++ later)%list
      /\ (length (List.filter is_net_event later) <= S (Cli.MAX_REDIRECTS - redirects))%nat.
Proof.
  induction k as [|k IH]; intros url output redirects w Hk;
    rewrite Cli.download_equation_1;
    (destruct (URL_parse url) as [parsed|];
     [|exists []; simpl; rewrite List.app_nil_r; split; [reflexivity|lia]]);
    cbv zeta;
    (destruct (net (Cli.requestImpl_for parsed) parsed) as [reason|response];
     [eexists; split; [reflexivity|simpl; lia]|]);
    (destruct (Cli.is_redirect response);
     [|destruct ((_ <? _)%Z || _); [eexists; split; [reflexivity|simpl; lia]|];
       destruct (body response); simpl; rewrite <- !List.app_assoc;
       (eexists; split; [reflexivity|simpl; lia])]);
    (destruct (decide (Cli.MAX_REDIRECTS <= redirects)%nat) as [Hge|Hlt];
     [eexists; split; [reflexivity|simpl; lia]|]);
    (destruct (URL_parse_base _ parsed) as [next|];
     [|eexists; split; [reflexivity|simpl; lia]]).
  - lia.
  - destruct (IH (URL_toString next) output (redirects + 1)%nat
                (record (Requested (Cli.requestImpl_for parsed) parsed) w))
      as (later & Hlater & Hbound); [lia|].
    rewrite Hlater. simpl. rewrite <- List.app_assoc.
    eexists. split; [reflexivity|]. simpl. lia.
Qed.

(** The bound of the redirect counter: whatever the network answers, one
    call of [download] with the counter at 0 makes at most six requests. *)
Lemma download_request_bound (url output : string) (w : World) :
  exists later,
    events (Cli.download net url output 0 w).2 = (events w ++ later)%list
    /\ (length (List.filter is_net_event later) <= 6)%nat.
Proof.
  exact (download_events_grow Cli.MAX_REDIRECTS url output 0%nat w (Nat.le_refl _)).
Qed.

(** When its URL parses, [download] starts by requesting it. *)
Lemma download_requests_first (url output : string) (redirects : nat) (w : World)
    (parsed : URL) :
  URL_parse url = Some parsed ->
  exists later,
    events (Cli.download net url output redirects w).2
    = (events w ++ Requested (Cli.requestImpl_for parsed) parsed :: later)%list.
Proof.
  intros Hparse. rewrite Cli.download_equation_1, Hparse. simpl.
  destruct (net (Cli.requestImpl_for parsed) parsed) as [reason|response]; [now exists []|].
  destruct (Cli.is_redirect response).
  - destruct (decide (Cli.MAX_REDIRECTS <= redirects)%nat) as [Hge|Hlt]; [now exists []|].
    destruct (URL_parse_base _ parsed) as [next|]; [|now exists []].
    destruct (download_events_grow (Cli.MAX_REDIRECTS - (redirects + 1))
                (URL_toString next) output (redirects + 1)%nat
                (record (Requested (Cli.requestImpl_for parsed) parsed) w))
      as (later & Hlater & _); [lia|].
    rewrite Hlater. simpl. rewrite <- List.app_assoc. now exists later.
  - destruct ((_ <? _)%Z || _); [now exists []|].
    destruct (body response); simpl; rewrite <- !List.app_assoc; now eexists.
Qed.

(** Following a chain that is longer than the cap allows ends at the
  cap, after one request for each of the URLs up to there. *)
Lemma download_exhausts (visited : list URL) :
  forall (url output : string) (redirects : nat) (w : World) (first : URL),
    URL_parse url = Some first ->
    Spec.RedirectChain net (first :: visited) ->
    (redirects <= Cli.MAX_REDIRECTS)%nat ->
    (Cli.MAX_REDIRECTS - redirects < length visited)%nat ->
    Cli.download net url output redirects w
    = (Thrown Cli.TooManyRedirects,
       Spec.requested (take (S (Cli.MAX_REDIRECTS - redirects)) (first :: visited)) w).
Proof.
  induction visited as [|v rest IH]; intros url output redirects w first Hparse Hchain Hle Hlen;
    [simpl in Hlen; lia|].
  inversion Hchain as [|u v' rest' Hhop Hrest]; subst.
  destruct Hhop as (response & Hnet & Hredirect & Htarget & Hnext).
  destruct (decide (Cli.MAX_REDIRECTS <= redirects)%nat) as [Hge|Hlt].
  - rewrite (download_cap _ _ _ _ _ _ Hparse Hnet Hredirect Hge).
    replace (Cli.MAX_REDIRECTS - redirects)%nat with 0%nat by lia.
    simpl. now rewrite <- requested_cons, requested_nil.
  - assert (Hcap : (redirects < Cli.MAX_REDIRECTS)%nat) by lia.
    rewrite (download_follow _ _ _ _ _ _ _ Hparse Hnet Hredirect Hcap Htarget).
    rewrite (IH _ _ _ _ _ Hnext Hrest); [|lia|simpl in Hlen; lia].
    rewrite requested_cons.
    replace (Cli.MAX_REDIRECTS - redirects)%nat
      with (S (Cli.MAX_REDIRECTS - (redirects + 1)))%nat by lia.
    reflexivity.
Qed.

End Download.

(** ** Schemes and statuses *)

Lemma supported_scheme (u : URL) :
    protocol u = "http:" \/ protocol u = "https:" <->
    Js.includes ["http:"; "https:"] (protocol u) = true.
  Proof.
    unfold Js.includes. simpl. rewrite !orb_true_iff, !String.eqb_eq. intuition discriminate.
  Qed.

Lemma unsupported_scheme (u : URL) :
    protocol u <> "http:" -> protocol u <> "https:" ->
    Js.includes ["http:"; "https:"] (protocol u) = false.
  Proof.
    intros Hhttp Hhttps. apply not_true_is_false. intros Hin.
    apply supported_scheme in Hin. tauto.
  Qed.

Lemma ok_range (r : Plugin.Response) :
    Plugin.ok r = true <-> (200 <= Plugin.status r < 300)%Z.
  Proof. unfold Plugin.ok. rewrite andb_true_iff, !Z.leb_le. lia. Qed.

(** ** The plugin's [execute] *)

Section Execute.
  Context `{Platform}.
  Variable fetch : URL -> Plugin.FetchResult.

(** [execute], with its sequence of awaits and throws written out. *)
Lemma execute_unfold (args : Plugin.Args) (context : Plugin.ToolContext) (w : World) :
  Plugin.execute fetch args context w
  = match URL_parse (Plugin.arg_url args) with
    | None => (Thrown (TypeError "Invalid URL"), w)
    | Some parsedUrl =>
        if negb (Js.includes ["http:"; "https:"] (protocol parsedUrl)) then
          (Thrown UnsupportedScheme, w)
        else
          let outputPath :=
            Plugin.resolveDestination parsedUrl (Plugin.arg_outputPath args)
              (Plugin.directory context) in
          let w1 := record (Fetched parsedUrl) w in
          match fetch parsedUrl with
          | Plugin.FetchRejected reason => (Thrown (TransportError reason), w1)
          | Plugin.FetchResolved r =>
              if negb (Plugin.ok r) then (Thrown (DownloadFailed (Plugin.status r)), w1)
              else
                match Plugin.response_body r with
                | BodyComplete data =>
                    (Returned {| Plugin.url := URL_toString parsedUrl;
                                 Plugin.outputPath := outputPath;
                                 Plugin.bytesWritten := length data |},
                     fs_write outputPath data (fs_mkdir (path_dirname outputPath) w1))
                | BodyAborted _ reason => (Thrown (TransportError reason), w1)
                end
          end
    end.
Proof.
  unfold Plugin.execute, bind, new_URL.
  destruct (URL_parse (Plugin.arg_url args)) as [parsedUrl|]; [|reflexivity].
  unfold ret at 1.
  destruct (negb (Js.includes _ (protocol parsedUrl))); [reflexivity|].
  unfold Plugin.await_fetch.
  destruct (fetch parsedUrl) as [reason|r]; [reflexivity|].
  destruct (negb (Plugin.ok r)); [reflexivity|].
  unfold Plugin.arrayBuffer.
  destruct (Plugin.response_body r); reflexivity.
Qed.

End Execute.

(** ** The runtime's [fetch] along a redirect chain *)

Section FetchChain.
  Context `{Platform}.
  Variable net : Network.

Lemma follow_unfold (budget : nat) (current : URL) :
  Fetch.follow net budget current
  = match net (Cli.requestImpl_for current) current with
    | RequestFailed reason => Plugin.FetchRejected reason
    | Responded response =>
        let status := Js.nullish (statusCode response) 0 in
        let final :=
          Plugin.FetchResolved
            {| Plugin.status := status;
               Plugin.response_url := URL_toString current;
               Plugin.response_body := body response |} in
        if Js.includesZ [301; 302; 303; 307; 308]%Z status then
          match headers_location response with
          | None => final
          | Some location =>
              if Js.truthy location then
                match URL_parse_base location current with
                | None => Plugin.FetchRejected "invalid redirect target"
                | Some next =>
                    match budget with
                    | O => Plugin.FetchRejected "redirect count exceeded"
                    | S budget' => Fetch.follow net budget' next
                    end
                end
              else final
          end
        else final
    end.
Proof. destruct budget; reflexivity. Qed.

(** A fetch that may follow as many redirects as the chain has hops
    resolves with the response of the last URL of the chain. *)
Lemma follow_chain (visited : list URL) :
  forall (budget : nat) (first final : URL) (data : list byte),
    Spec.RedirectChain net (first :: visited) ->
    (length visited <= budget)%nat ->
    last (first :: visited) = Some final ->
    Spec.succeeds_with net final data ->
    exists r,
      Fetch.follow net budget first = Plugin.FetchResolved r
      /\ (200 <= Plugin.status r < 300)%Z
      /\ Plugin.response_url r = URL_toString final
      /\ Plugin.response_body r = BodyComplete data.
Proof.
  induction visited as [|v rest IH];
    intros budget first final data Hchain Hlen Hlast Hfinal.
  - simpl in Hlast. injection Hlast as ->.
    destruct Hfinal as (response & Hnet & Hstatus & Hbody).
    eexists. split; [|split; [|split]].
    + rewrite follow_unfold, Hnet. cbv zeta.
      rewrite (success_status_not_redirect _ Hstatus). reflexivity.
    + exact Hstatus.
    + reflexivity.
    + exact Hbody.
  - inversion Hchain as [|u v' rest' Hhop Hrest]; subst.
    destruct Hhop as (response & Hnet & Hredirect & Htarget & _).
    unfold Cli.is_redirect in Hredirect. apply andb_true_iff in Hredirect as [Hcode Hloc].
    destruct (headers_location response) as [location|] eqn:Hlocation; [|discriminate].
    simpl in Htarget, Hlen.
    destruct budget as [|budget]; [lia|].
    destruct (IH budget v final data Hrest ltac:(lia) Hlast Hfinal) as (r & Hr & Hrest').
    exists r. split; [|exact Hrest'].
    rewrite follow_unfold, Hnet. cbv zeta.
    simpl in Hloc. rewrite Hcode, Hlocation, Hloc, Htarget. exact Hr.
Qed.

End FetchChain.

(** ** The file system that can refuse *)

Section DiskFacts.

(** What a disk that accepts does. *)
Lemma accepts_run (faults : Disk.Faults) (w : World) (dir path : string)
    (data : list byte) :
  Disk.accepts faults w dir path = true ->
  Disk.mkdir faults dir w = Disk.Accepted (Disk.made dir w)
  /\ Disk.write faults path data (Disk.made dir w)
     = Disk.Accepted (fs_write path data (Disk.made dir w)).
Proof.
  unfold Disk.accepts, Disk.mkdir, Disk.write. intros Hacc.
  apply andb_true_iff in Hacc as [Hacc Hfault].
  apply andb_true_iff in Hacc as [Hacc Hdir].
  apply andb_true_iff in Hacc as [Hfile Hway].
  apply negb_true_iff in Hfile, Hway, Hdir. rewrite Hfile, Hway, Hdir.
  destruct (Disk.mkdir_fault faults dir) as [[reason count]|]; [discriminate|].
  destruct (Disk.write_fault faults path) as [[reason left]|]; [discriminate|].
  split; reflexivity.
Qed.

(** What a disk that does not accept does: it refuses the directory,
    or it makes the directory and refuses the file. *)
Lemma refuses_run (faults : Disk.Faults) (w : World) (dir path : string)
    (data : list byte) :
  Disk.accepts faults w dir path = false ->
  (exists e w1, Disk.mkdir faults dir w = Disk.Refused e w1)
  \/ (Disk.mkdir faults dir w = Disk.Accepted (Disk.made dir w)
      /\ exists e w2, Disk.write faults path data (Disk.made dir w) = Disk.Refused e w2).
Proof.
  unfold Disk.accepts, Disk.mkdir, Disk.write. intros Hacc.
  destruct (Disk.is_file w dir); [left; eauto|].
  destruct (existsb (Disk.is_file w) (Disk.ancestors dir)); [left; eauto|].
  destruct (Disk.mkdir_fault faults dir) as [[reason count]|]; [left; eauto|].
  right. split; [reflexivity|].
  destruct (Disk.is_dir (Disk.made dir w) path); [eauto|].
  destruct (Disk.write_fault faults path) as [[reason [count|]]|]; [eauto|eauto|discriminate].
Qed.

(** A directory is made as asked or the request is refused with a
    system error; a refusal leaves the files and the events as they
    were, and no directory but those on the way. *)
Lemma mkdir_cases (faults : Disk.Faults) (dir : string) (w : World) :
  Disk.mkdir faults dir w = Disk.Accepted (Disk.made dir w)
  \/ exists reason w1,
      Disk.mkdir faults dir w = Disk.Refused (SystemError reason) w1
      /\ files w1 = files w
      /\ events w1 = events w
      /\ dirs w1 ⊆ list_to_set (Disk.ancestors dir) ∪ dirs w.
Proof.
  unfold Disk.mkdir.
  destruct (Disk.is_file w dir);
    [right; do 2 eexists; split; [reflexivity|]; repeat split; set_solver|].
  destruct (existsb (Disk.is_file w) (Disk.ancestors dir));
    [right; do 2 eexists; split; [reflexivity|]; repeat split; set_solver|].
  destruct (Disk.mkdir_fault faults dir) as [[reason count]|]; [|now left].
  right. do 2 eexists. split; [reflexivity|]. repeat split. simpl.
  intros a Ha. apply elem_of_union in Ha as [Ha|Ha]; [|set_solver].
  apply elem_of_union_l, elem_of_list_to_set.
  apply elem_of_list_to_set in Ha.
  apply list_elem_of_In. apply elem_of_take in Ha as (i & Hi & _).
  apply list_elem_of_lookup_2, list_elem_of_In, filter_In in Hi. tauto.
Qed.

(** A file is written as asked or the request is refused with a system
    error; a refusal leaves the file alone or with the first bytes of
    what was to be written. *)
Lemma write_cases (faults : Disk.Faults) (path : string) (data : list byte) (w : World) :
  Disk.write faults path data w = Disk.Accepted (fs_write path data w)
  \/ exists reason w1,
      Disk.write faults path data w = Disk.Refused (SystemError reason) w1
      /\ (w1 = w \/ exists count, w1 = fs_write path (take count data) w).
Proof.
  unfold Disk.write.
  destruct (Disk.is_dir w path); [right; do 2 eexists; split; [reflexivity|now left]|].
  destruct (Disk.write_fault faults path) as [[reason [count|]]|]; [| |now left];
    right; do 2 eexists; (split; [reflexivity|]); eauto.
Qed.

(** Making a directory with those on the way makes the directory. *)
Lemma made_more (dir : string) (before : gset string) :
  {[dir]} ∪ before ⊆ {[dir]} ∪ list_to_set (Disk.ancestors dir) ∪ before.
Proof.
  intros a Ha. apply elem_of_union in Ha as [Ha|Ha];
    [apply elem_of_union_l, elem_of_union_l|apply elem_of_union_r]; exact Ha.
Qed.

End DiskFacts.

(** ** The two programs on that file system *)

Section OnDiskFacts.
  Context `{Platform}.
  Variable faults : Disk.Faults.
  Variable net : Network.

(** What [download] does with a final response of success status, from
    [mkdirSync] on. *)
Local Abbreviation saving output stream w :=
  (match Disk.mkdir faults (path_dirname output) w with
   | Disk.Refused e w1 => (Uncaught e, w1)
   | Disk.Accepted w1 =>
       match stream with
       | BodyComplete data =>
           match Disk.write faults output data w1 with
           | Disk.Accepted w2 => (Returned tt, w2)
           | Disk.Refused streamError w2 => (Thrown streamError, w2)
           end
       | BodyAborted received responseError =>
           match Disk.write faults output received w1 with
           | Disk.Accepted w2 => (Thrown (TransportError responseError), w2)
           | Disk.Refused streamError w2 => (Thrown streamError, w2)
           end
       end
   end).

(** The four ways in which it ends: the directory is refused and the
    error escapes; the file is refused and the promise rejects with the
    error of the file stream; or directory and file are accepted, and
    the promise resolves after a complete body and rejects with the
    error of the response after one that broke off. *)
Lemma saving_cases (output : string) (stream : BodyStream) (w : World) :
  (exists reason w1,
      saving output stream w = (Uncaught (SystemError reason), w1)
      /\ Disk.mkdir faults (path_dirname output) w = Disk.Refused (SystemError reason) w1
      /\ files w1 = files w
      /\ events w1 = events w
      /\ dirs w1 ⊆ list_to_set (Disk.ancestors (path_dirname output)) ∪ dirs w)
  \/ (exists reason received w2,
        saving output stream w = (Thrown (SystemError reason), w2)
        /\ Disk.write faults output received (Disk.made (path_dirname output) w)
           = Disk.Refused (SystemError reason) w2
        /\ (w2 = Disk.made (path_dirname output) w
            \/ exists count,
                w2 = fs_write output (take count received)
                       (Disk.made (path_dirname output) w)))
  \/ (exists data,
        stream = BodyComplete data
        /\ saving output stream w
           = (Returned tt, fs_write output data (Disk.made (path_dirname output) w)))
  \/ (exists received reason,
        stream = BodyAborted received reason
        /\ saving output stream w
           = (Thrown (TransportError reason),
              fs_write output received (Disk.made (path_dirname output) w))).
Proof.
  destruct (mkdir_cases faults (path_dirname output) w)
    as [Hmade | (reason & w1 & Hrefused & Hframe)].
  - rewrite Hmade.
    destruct stream as [data|received responseError].
    + destruct (write_cases faults output data (Disk.made (path_dirname output) w))
        as [Hwritten | (reason & w2 & Hrefused & Hleft)].
      * rewrite Hwritten. right. right. left. eauto.
      * rewrite Hrefused. right. left. exists reason, data, w2. auto.
    + destruct (write_cases faults output received (Disk.made (path_dirname output) w))
        as [Hwritten | (reason & w2 & Hrefused & Hleft)].
      * rewrite Hwritten. right. right. right. eauto.
      * rewrite Hrefused. right. left. exists reason, received, w2. auto.
  - rewrite Hrefused. left. exists reason, w1. auto.
Qed.

(** The events it adds: none, the making of the directory, or the
    making of the directory and one write to [output]. *)
Lemma saving_events (output : string) (stream : BodyStream) (w : World) :
  exists written,
    events (saving output stream w).2 = (events w ++ written)%list
    /\ (written = []
        \/ written = [MadeDir (path_dirname output)]
        \/ exists data, written = [MadeDir (path_dirname output); Wrote output data]).
Proof.
  destruct (saving_cases output stream w)
    as [(reason & w1 & Hrun & _ & _ & Hevents & _)
       | [(reason & received & w2 & Hrun & _ & [Hleft | [count Hleft]])
         | [(data & _ & Hrun) | (received & reason & _ & Hrun)]]];
    rewrite Hrun; try rewrite Hleft; simpl.
  - exists []. rewrite Hevents, List.app_nil_r. auto.
  - eexists. split; [reflexivity|]. auto.
  - eexists. split; [now rewrite <- List.app_assoc|]. simpl. eauto.
  - eexists. split; [now rewrite <- List.app_assoc|]. simpl. eauto.
  - eexists. split; [now rewrite <- List.app_assoc|]. simpl. eauto.
Qed.

(** No file but the one at [output] changes, and no directory is made
    but [output]'s and those on the way to it. *)
Lemma saving_frame (output : string) (stream : BodyStream) (w : World) (path : string) :
  path <> output ->
  files (saving output stream w).2 !! path = files w !! path
  /\ dirs (saving output stream w).2
     ⊆ {[path_dirname output]} ∪ list_to_set (Disk.ancestors (path_dirname output)) ∪ dirs w.
Proof.
  intros Hpath.
  destruct (saving_cases output stream w)
    as [(reason & w1 & Hrun & _ & Hfiles & _ & Hdirs)
       | [(reason & received & w2 & Hrun & _ & [Hleft | [count Hleft]])
         | [(data & _ & Hrun) | (received & reason & _ & Hrun)]]];
    rewrite Hrun; try rewrite Hleft; simpl.
  - rewrite Hfiles. split; [reflexivity|].
    intros a Ha. apply Hdirs in Ha. apply elem_of_union in Ha as [Ha|Ha];
      [apply elem_of_union_l, elem_of_union_r|apply elem_of_union_r]; exact Ha.
  - split; [reflexivity|set_solver].
  - split; [|set_solver]. apply lookup_insert_ne. congruence.
  - split; [|set_solver]. apply lookup_insert_ne. congruence.
  - split; [|set_solver]. apply lookup_insert_ne. congruence.
Qed.

(** A redirect below the cap with a target that parses makes [download]
    continue at the serialised target with the counter incremented. *)
Lemma disk_download_follow (url output : string) (redirects : nat) (w : World)
    (parsed : URL) (response : IncomingMessage) (next : URL) :
  URL_parse url = Some parsed ->
  net (Cli.requestImpl_for parsed) parsed = Responded response ->
  Cli.is_redirect response = true ->
  (redirects < Cli.MAX_REDIRECTS)%nat ->
  URL_parse_base (Js.narrowed (headers_location response)) parsed = Some next ->
  OnDisk.download faults net url output redirects w
  = OnDisk.download faults net (URL_toString next) output (redirects + 1)
      (record (Requested (Cli.requestImpl_for parsed) parsed) w).
Proof.
  intros Hparse Hnet Hredirect Hcap Hnext.
  rewrite OnDisk.download_equation_1 at 1.
  rewrite Hparse. cbv zeta. rewrite Hnet, Hredirect.
  destruct (decide (Cli.MAX_REDIRECTS <= redirects)%nat) as [Hge|_]; [lia|].
  now rewrite Hnext.
Qed.

(** A final response with a success status is saved. *)
Lemma disk_download_final (url output : string) (redirects : nat) (w : World)
    (parsed : URL) (response : IncomingMessage) :
  URL_parse url = Some parsed ->
  net (Cli.requestImpl_for parsed) parsed = Responded response ->
  (200 <= Js.nullish (statusCode response) 0 < 300)%Z ->
  OnDisk.download faults net url output redirects w
  = saving output (body response) (record (Requested (Cli.requestImpl_for parsed) parsed) w).
Proof.
  intros Hparse Hnet Hstatus.
  rewrite OnDisk.download_equation_1.
  rewrite Hparse. cbv zeta. rewrite Hnet.
  unfold Cli.is_redirect. rewrite (success_status_not_redirect _ Hstatus).
  replace ((_ <? 200)%Z || _) with false
    by (symmetry; apply orb_false_iff; split; [apply Z.ltb_ge|apply Z.leb_gt]; lia).
  reflexivity.
Qed.

(** Following a chain within the cap reaches its last URL, whose
    response is saved. *)
Lemma disk_download_follows_chain (visited : list URL) :
  forall (url output : string) (redirects : nat) (w : World) (first final : URL)
         (data : list byte),
    URL_parse url = Some first ->
    Spec.RedirectChain net (first :: visited) ->
    (redirects + length visited <= Cli.MAX_REDIRECTS)%nat ->
    last (first :: visited) = Some final ->
    Spec.succeeds_with net final data ->
    OnDisk.download faults net url output redirects w
    = saving output (BodyComplete data) (Spec.requested (first :: visited) w).
Proof.
  induction visited as [|v rest IH];
    intros url output redirects w first final data Hparse Hchain Hlen Hlast Hfinal.
  - simpl in Hlast. injection Hlast as ->.
    destruct Hfinal as (response & Hnet & Hstatus & Hbody).
    rewrite (disk_download_final _ _ _ _ _ _ Hparse Hnet Hstatus), Hbody.
    now rewrite <- requested_cons, requested_nil.
  - inversion Hchain as [|u v' rest' Hhop Hrest]; subst.
    destruct Hhop as (response & Hnet & Hredirect & Htarget & Hnext).
    simpl in Hlen.
    assert (Hcap : (redirects < Cli.MAX_REDIRECTS)%nat) by lia.
    rewrite (disk_download_follow _ _ _ _ _ _ _ Hparse Hnet Hredirect Hcap Htarget).
    rewrite (IH _ _ _ _ _ final data Hnext Hrest); [|lia|exact Hlast|exact Hfinal].
    now rewrite requested_cons.
Qed.

(** The shape of every run of [download]: requests for some URLs, at
    most as many as the counter leaves of the cap and one; then the
    run ends early, with the cause of its error, or the response of the
    last URL has a success status and is saved. *)
Lemma disk_download_shape (k : nat) :
  forall (url output : string) (redirects : nat) (w : World),
    (Cli.MAX_REDIRECTS - redirects <= k)%nat ->
    exists visited : list URL,
      (length visited <= S (Cli.MAX_REDIRECTS - redirects))%nat
      /\ (((OnDisk.download faults net url output redirects w).2 = Spec.requested visited w
           /\ ((OnDisk.download faults net url output redirects w).1
               = Thrown (TypeError "Invalid URL")
               \/ (OnDisk.download faults net url output redirects w).1
                  = Thrown Cli.TooManyRedirects
               \/ (OnDisk.download faults net url output redirects w).1
                  = Uncaught (TypeError "Invalid URL")
               \/ (exists u reason,
                      net (Cli.requestImpl_for u) u = RequestFailed reason
                      /\ (OnDisk.download faults net url output redirects w).1
                         = Thrown (TransportError reason))
               \/ (exists u response,
                      net (Cli.requestImpl_for u) u = Responded response
                      /\ (Js.nullish (statusCode response) 0 < 200
                          \/ 300 <= Js.nullish (statusCode response) 0)%Z
                      /\ (OnDisk.download faults net url output redirects w).1
                         = Thrown (DownloadFailed (Js.nullish (statusCode response) 0)))))
          \/ exists final response,
              last visited = Some final
              /\ net (Cli.requestImpl_for final) final = Responded response
              /\ (200 <= Js.nullish (statusCode response) 0 < 300)%Z
              /\ OnDisk.download faults net url output redirects w
                 = saving output (body response) (Spec.requested visited w)).
Proof.
  induction k as [|k IH]; intros url output redirects w Hk;
    rewrite OnDisk.download_equation_1;
    (destruct (URL_parse url) as [parsed|];
     [|exists []; split; [simpl; lia|left; rewrite requested_nil; auto]]);
    cbv zeta;
    (destruct (net (Cli.requestImpl_for parsed) parsed) as [reason|response] eqn:Hnet;
     [exists [parsed]; split; [simpl; lia|left; rewrite <- requested_cons, requested_nil; eauto 10]|]).
  all: destruct (Cli.is_redirect response) eqn:Hredirect.
  all: try (destruct (decide (Cli.MAX_REDIRECTS <= redirects)%nat) as [Hge|Hlt];
            [exists [parsed]; split; [simpl; lia|left; rewrite <- requested_cons, requested_nil; auto]|];
            destruct (URL_parse_base _ parsed) as [next|];
            [|exists [parsed]; split; [simpl; lia|left; rewrite <- requested_cons, requested_nil; auto]]).
  all: try (destruct ((_ <? 200)%Z || _) eqn:Hstatus;
            [apply orb_true_iff in Hstatus; rewrite Z.ltb_lt, Z.leb_le in Hstatus;
             exists [parsed]; split; [simpl; lia|left; rewrite <- requested_cons, requested_nil];
             split; [reflexivity|]; do 4 right; exists parsed, response; auto
            |apply orb_false_iff in Hstatus as [Hlow Hhigh];
             apply Z.ltb_ge in Hlow; apply Z.leb_gt in Hhigh;
             exists [parsed]; split; [simpl; lia|right];
             exists parsed, response; rewrite <- requested_cons, requested_nil;
             repeat split; try assumption; try lia]).
  - lia.
  - destruct (IH (URL_toString next) output (redirects + 1)%nat
                (record (Requested (Cli.requestImpl_for parsed) parsed) w))
      as (visited & Hlen & Hcases); [lia|].
    exists (parsed :: visited). split; [simpl; lia|].
    rewrite requested_cons in Hcases.
    destruct Hcases as [Hleft | (final & response' & Hlast & Hrest)];
      [left; exact Hleft|].
    right. exists final, response'. split; [|exact Hrest].
    destruct visited; [discriminate|exact Hlast].
Qed.

End OnDiskFacts.

Section OnDiskExecute.
  Context `{Platform}.
  Variable faults : Disk.Faults.
  Variable fetch : URL -> Plugin.FetchResult.

(** [execute], with its sequence of awaits and throws written out. *)
Lemma disk_execute_unfold (args : Plugin.Args) (context : Plugin.ToolContext) (w : World) :
  OnDisk.execute faults fetch args context w
  = match URL_parse (Plugin.arg_url args) with
    | None => (Thrown (TypeError "Invalid URL"), w)
    | Some parsedUrl =>
        if negb (Js.includes ["http:"; "https:"] (protocol parsedUrl)) then
          (Thrown UnsupportedScheme, w)
        else
          let outputPath :=
            Plugin.resolveDestination parsedUrl (Plugin.arg_outputPath args)
              (Plugin.directory context) in
          let w1 := record (Fetched parsedUrl) w in
          match fetch parsedUrl with
          | Plugin.FetchRejected reason => (Thrown (TransportError reason), w1)
          | Plugin.FetchResolved r =>
              if negb (Plugin.ok r) then (Thrown (DownloadFailed (Plugin.status r)), w1)
              else
                match Plugin.response_body r with
                | BodyComplete data =>
                    match Disk.mkdir faults (path_dirname outputPath) w1 with
                    | Disk.Refused e w2 => (Thrown e, w2)
                    | Disk.Accepted w2 =>
                        match Disk.write faults outputPath data w2 with
                        | Disk.Refused e w3 => (Thrown e, w3)
                        | Disk.Accepted w3 =>
                            (Returned {| Plugin.url := URL_toString parsedUrl;
                                         Plugin.outputPath := outputPath;
                                         Plugin.bytesWritten := length data |}, w3)
                        end
                    end
                | BodyAborted _ reason => (Thrown (TransportError reason), w1)
                end
          end
    end.
Proof.
  unfold OnDisk.execute, bind, new_URL.
  destruct (URL_parse (Plugin.arg_url args)) as [parsedUrl|]; [|reflexivity].
  unfold ret at 1.
  destruct (negb (Js.includes _ (protocol parsedUrl))); [reflexivity|].
  unfold Plugin.await_fetch.
  destruct (fetch parsedUrl) as [reason|r]; [reflexivity|].
  destruct (negb (Plugin.ok r)); [reflexivity|].
  unfold Plugin.arrayBuffer.
  destruct (Plugin.response_body r) as [data|received reason]; [|reflexivity].
  unfold ret at 1. unfold OnDisk.await.
  destruct (Disk.mkdir faults _ _) as [w2|e w2]; [|reflexivity].
  destruct (Disk.write faults _ _ w2) as [w3|e w3]; reflexivity.
Qed.

End OnDiskExecute.

(** ** The properties the specification states *)

Section Claims.
  Context `{Platform}.

(** C2.  A redirect chain of more than 5 hops makes [download] fail with
  the too-many-redirects error.  The counter starts at 0; the request
  made with the counter at 5 is the last one, so exactly the first six
  URLs of the chain are requested, nothing follows the sixth request,
  and no directory is made and no file written. *)
Theorem too_many_redirects
    (net : Network) (url output : string) (w : World) (first : URL) (visited : list URL) :
  URL_parse url = Some first ->
  Spec.RedirectChain net (first :: visited) ->
  (Spec.chain_length (first :: visited) > 5)%nat ->
  exists w',
    Cli.download net url output 0 w = (Thrown Cli.TooManyRedirects, w')
    /\ events w'
       = (events w
          ++ map (fun u => Requested (Cli.requestImpl_for u) u) (take 6 (first :: visited)))%list
    /\ files w' = files w
    /\ dirs w' = dirs w.
Proof.
  intros Hparse Hchain Hlen. unfold Spec.chain_length in Hlen. simpl in Hlen.
  eexists. split.
  - apply (download_exhausts net visited url output 0%nat w first Hparse Hchain).
    + unfold Cli.MAX_REDIRECTS. lia.
    + unfold Cli.MAX_REDIRECTS. lia.
  - repeat split; reflexivity.
Qed.

(** C7.  After a response with a redirect status that carries a
  [Location] header, no request is made but for the [Location] value
  resolved against the current URL: a request that follows the one for
  the current URL is for the resolved URL, as the URL parser reads its
  serialisation.  And that request does follow, [download] going on
  from there with the counter incremented, when the value is not empty
  (the source tests its truthiness), the cap is not reached and the
  value resolves. *)
Theorem redirect_resolved_against_current
    (net : Network) (url output : string) (redirects : nat) (w : World)
    (parsed : URL) (response : IncomingMessage) (location : string) :
  URL_parse url = Some parsed ->
  net (Cli.requestImpl_for parsed) parsed = Responded response ->
  Js.includesZ [301; 302; 303; 307; 308]%Z (Js.nullish (statusCode response) 0) = true ->
  headers_location response = Some location ->
  (forall (impl : RequestImpl) (second : URL) (later : list Event),
      events (Cli.download net url output redirects w).2
      = (events w
         ++ Requested (Cli.requestImpl_for parsed) parsed
         :: Requested impl second
         :: later)%list ->
      exists next,
        URL_parse_base location parsed = Some next
        /\ URL_parse (URL_toString next) = Some second
        /\ impl = Cli.requestImpl_for second)
  /\ (location <> "" ->
      (redirects < Cli.MAX_REDIRECTS)%nat ->
      forall next requested : URL,
        URL_parse_base location parsed = Some next ->
        URL_parse (URL_toString next) = Some requested ->
        Cli.download net url output redirects w
        = Cli.download net (URL_toString next) output (redirects + 1)
            (record (Requested (Cli.requestImpl_for parsed) parsed) w)
        /\ exists later,
            events (Cli.download net url output redirects w).2
            = (events w
               ++ Requested (Cli.requestImpl_for parsed) parsed
               :: Requested (Cli.requestImpl_for requested) requested
               :: later)%list).
Proof.
  intros Hparse Hnet Hstatus Hlocation. split.
  - intros impl second later.
    rewrite Cli.download_equation_1, Hparse. cbv zeta. rewrite Hnet.
    destruct (Cli.is_redirect response).
    + destruct (decide (Cli.MAX_REDIRECTS <= redirects)%nat) as [Hge|Hlt];
        [intros Hevents; simpl in Hevents; apply List.app_inv_head in Hevents;
         discriminate|].
      rewrite Hlocation. simpl Js.narrowed.
      destruct (URL_parse_base location parsed) as [next|];
        [|intros Hevents; simpl in Hevents; apply List.app_inv_head in Hevents;
          discriminate].
      destruct (URL_parse (URL_toString next)) as [requested|] eqn:Hrequested.
      * destruct (download_requests_first net (URL_toString next) output
                    (redirects + 1)%nat
                    (record (Requested (Cli.requestImpl_for parsed) parsed) w)
                    requested Hrequested) as [rest Hrest].
        rewrite Hrest. simpl. rewrite <- List.app_assoc. simpl.
        intros Hevents. apply List.app_inv_head in Hevents.
        injection Hevents as <- <- _. now exists next.
      * rewrite Cli.download_equation_1, Hrequested.
        intros Hevents; simpl in Hevents; apply List.app_inv_head in Hevents;
          discriminate.
    + rewrite (redirect_status_not_success _ Hstatus).
      intros Hevents; simpl in Hevents; apply List.app_inv_head in Hevents;
        discriminate.
  - intros Hne Hcap next requested Hnext Hrequested.
    assert (Hredirect : Cli.is_redirect response = true).
    { unfold Cli.is_redirect. rewrite Hstatus, Hlocation. simpl.
      now apply truthy_nonempty. }
    assert (Hnext' :
              URL_parse_base (Js.narrowed (headers_location response)) parsed = Some next)
      by now rewrite Hlocation.
    pose proof (download_follow net url output redirects w parsed response next
                  Hparse Hnet Hredirect Hcap Hnext') as Hfollow.
    split; [exact Hfollow|].
    rewrite Hfollow.
    destruct (download_requests_first net (URL_toString next) output (redirects + 1)%nat
                (record (Requested (Cli.requestImpl_for parsed) parsed) w)
                requested Hrequested) as [later Hlater].
    exists later. rewrite Hlater. simpl. now rewrite <- List.app_assoc.
Qed.

(** C8.  A response with a redirect status and no [Location] header is
  not followed: [download] fails with the download-failed error that
  carries the status, after the one request and without touching the
  file system. *)
Theorem redirect_without_location_fails
    (net : Network) (url output : string) (redirects : nat) (w : World)
    (parsed : URL) (response : IncomingMessage) :
  URL_parse url = Some parsed ->
  net (Cli.requestImpl_for parsed) parsed = Responded response ->
  Js.includesZ [301; 302; 303; 307; 308]%Z (Js.nullish (statusCode response) 0) = true ->
  headers_location response = None ->
  exists w',
    Cli.download net url output redirects w
    = (Thrown (DownloadFailed (Js.nullish (statusCode response) 0)), w')
    /\ events w' = (events w ++ [Requested (Cli.requestImpl_for parsed) parsed])%list
    /\ files w' = files w
    /\ dirs w' = dirs w.
Proof.
  intros Hparse Hnet Hstatus Hlocation.
  assert (Hredirect : Cli.is_redirect response = false).
  { unfold Cli.is_redirect. rewrite Hlocation. apply andb_false_r. }
  rewrite (download_final net url output redirects w parsed response Hparse Hnet Hredirect).
  simpl. rewrite (redirect_status_not_success _ Hstatus).
  eexists. repeat split; reflexivity.
Qed.




(** C3.  A final response, one that is not a redirect to follow, with a
  status outside the range from 200 to 299 makes the operation fail
  with the download-failed error carrying that status; the files and
  directories are those of before and only the request was made.  In
  the command-line program and in the plugin. *)
Theorem non_success_status_fails :
  (forall (net : Network) (url output : string) (redirects : nat) (w : World)
          (parsed : URL) (response : IncomingMessage),
      URL_parse url = Some parsed ->
      net (Cli.requestImpl_for parsed) parsed = Responded response ->
      Cli.is_redirect response = false ->
      (Js.nullish (statusCode response) 0 < 200
       \/ 300 <= Js.nullish (statusCode response) 0)%Z ->
      exists w',
        Cli.download net url output redirects w
        = (Thrown (DownloadFailed (Js.nullish (statusCode response) 0)), w')
        /\ events w' = (events w ++ [Requested (Cli.requestImpl_for parsed) parsed])%list
        /\ files w' = files w
        /\ dirs w' = dirs w)
  /\ (forall (fetch : URL -> Plugin.FetchResult) (args : Plugin.Args)
             (context : Plugin.ToolContext) (w : World)
             (parsedUrl : URL) (r : Plugin.Response),
        URL_parse (Plugin.arg_url args) = Some parsedUrl ->
        (protocol parsedUrl = "http:" \/ protocol parsedUrl = "https:") ->
        fetch parsedUrl = Plugin.FetchResolved r ->
        (Plugin.status r < 200 \/ 300 <= Plugin.status r)%Z ->
        exists w',
          Plugin.execute fetch args context w
          = (Thrown (DownloadFailed (Plugin.status r)), w')
          /\ events w' = (events w ++ [Fetched parsedUrl])%list
          /\ files w' = files w
          /\ dirs w' = dirs w).
Proof.
  split.
  - intros net url output redirects w parsed response Hparse Hnet Hredirect Hstatus.
    rewrite (download_final net url output redirects w parsed response Hparse Hnet Hredirect).
    simpl.
    replace ((_ <? 200)%Z || _) with true
      by (symmetry; apply orb_true_iff; rewrite Z.ltb_lt, Z.leb_le; exact Hstatus).
    eexists. repeat split; reflexivity.
  - intros fetch args context w parsedUrl r Hparse Hscheme Hfetch Hstatus.
    rewrite execute_unfold, Hparse.
    apply supported_scheme in Hscheme. rewrite Hscheme. simpl. rewrite Hfetch.
    replace (Plugin.ok r) with false
      by (symmetry; apply not_true_is_false; rewrite ok_range; lia).
    simpl. eexists. repeat split; reflexivity.
Qed.

(** C4.  A URL whose scheme is neither http nor https is refused with
  the unsupported-scheme error before anything else happens: the
  plugin leaves the world as it was (no fetch, no file-system action),
  and so does [parseArgs] of the command-line program, whose [main]
  then only prints the error and exits with status 1. *)
Theorem unsupported_scheme_rejected :
  (forall (fetch : URL -> Plugin.FetchResult) (args : Plugin.Args)
          (context : Plugin.ToolContext) (w : World) (parsedUrl : URL),
      URL_parse (Plugin.arg_url args) = Some parsedUrl ->
      protocol parsedUrl <> "http:" ->
      protocol parsedUrl <> "https:" ->
      Plugin.execute fetch args context w = (Thrown UnsupportedScheme, w))
  /\ (forall (net : Network) (urlArg : string) (rest : list string) (w : World)
             (parsedUrl : URL),
        urlArg <> "" -> urlArg <> "--help" -> urlArg <> "-h" ->
        URL_parse urlArg = Some parsedUrl ->
        protocol parsedUrl <> "http:" ->
        protocol parsedUrl <> "https:" ->
        Cli.parseArgs (urlArg :: rest) w = (Thrown UnsupportedScheme, w)
        /\ Cli.main net (urlArg :: rest) w
           = (Exited 1,
              record (LoggedError "Error: Only http and https URLs are supported.") w)).
Proof.
  split.
  - intros fetch args context w parsedUrl Hparse Hhttp Hhttps.
    rewrite execute_unfold, Hparse, (unsupported_scheme _ Hhttp Hhttps). reflexivity.
  - intros net urlArg rest w parsedUrl Hne Hhelp Hh Hparse Hhttp Hhttps.
    assert (Hargs : Cli.parseArgs (urlArg :: rest) w = (Thrown UnsupportedScheme, w)).
    { unfold Cli.parseArgs. simpl.
      rewrite (truthy_nonempty _ Hne).
      rewrite (proj2 (String.eqb_neq _ _) Hhelp), (proj2 (String.eqb_neq _ _) Hh). simpl.
      unfold bind, try_catch, new_URL. rewrite Hparse. unfold ret at 1.
      pose proof (unsupported_scheme _ Hhttp Hhttps) as Hscheme.
      unfold Js.includes in Hscheme. simpl in Hscheme. now rewrite Hscheme. }
    split; [exact Hargs|].
    unfold Cli.main, try_catch, bind. now rewrite Hargs.
Qed.


(** C1, as amended.  Along a redirect chain of at most 5 hops whose last
    URL answers with a success status and a complete body, no error
    comes of the redirects: [download] requests the URLs of the chain in
    order, the last request being for the last URL, and does not fail
    with the too-many-redirects error.  When the file system accepts
    the directory and the file of the destination, the operation
    succeeds and saves the body received from the last URL of the
    chain; [download] returns no value.  The plugin, whose [fetch]
    follows the chain, returns a result whose [url] is the URL that was
    requested, as the URL parser serialises it: the first URL of the
    chain, not the last. *)
Theorem redirect_chain_within_cap_succeeds
    (faults : Disk.Faults) (net : Network) (url output : string) (args : Plugin.Args)
    (context : Plugin.ToolContext) (w : World)
    (first final : URL) (visited : list URL) (data : list byte) :
  URL_parse url = Some first ->
  Spec.RedirectChain net (first :: visited) ->
  (Spec.chain_length (first :: visited) <= 5)%nat ->
  last (first :: visited) = Some final ->
  Spec.succeeds_with net final data ->
  (exists written,
      events (OnDisk.download faults net url output 0 w).2
      = (events w
         ++ map (fun u => Requested (Cli.requestImpl_for u) u) (first :: visited)
         ++ written)%list
      /\ List.filter is_net_event written = []
      /\ (OnDisk.download faults net url output 0 w).1 <> Thrown Cli.TooManyRedirects)
  /\ (Disk.accepts faults w (path_dirname output) output = true ->
      exists w',
        OnDisk.download faults net url output 0 w = (Returned tt, w')
        /\ events w'
           = (events w
              ++ map (fun u => Requested (Cli.requestImpl_for u) u) (first :: visited)
              ++ [MadeDir (path_dirname output); Wrote output data])%list
        /\ files w' !! output = Some data)
  /\ (Plugin.arg_url args = url ->
      protocol first = "http:" \/ protocol first = "https:" ->
      Disk.accepts faults w
        (path_dirname
           (Plugin.resolveDestination first (Plugin.arg_outputPath args)
              (Plugin.directory context)))
        (Plugin.resolveDestination first (Plugin.arg_outputPath args)
           (Plugin.directory context)) = true ->
      exists result w',
        OnDisk.execute faults (Fetch.fetch net) args context w = (Returned result, w')
        /\ Plugin.url result = URL_toString first
        /\ Plugin.outputPath result
           = Plugin.resolveDestination first (Plugin.arg_outputPath args)
               (Plugin.directory context)
        /\ files w' !! Plugin.outputPath result = Some data
        /\ events w'
           = (events w
              ++ [Fetched first;
                  MadeDir (path_dirname (Plugin.outputPath result));
                  Wrote (Plugin.outputPath result) data])%list).
Proof.
  intros Hparse Hchain Hlen Hlast Hfinal.
  unfold Spec.chain_length in Hlen. simpl in Hlen.
  assert (Hrun := disk_download_follows_chain faults net visited url output 0%nat w
                    first final data Hparse Hchain).
  rewrite Hrun; [|unfold Cli.MAX_REDIRECTS; lia|exact Hlast|exact Hfinal].
  split; [|split].
  - destruct (saving_events faults output (BodyComplete data)
                (Spec.requested (first :: visited) w)) as (written & Hevents & Hwritten).
    exists written. rewrite Hevents. split; [|split].
    + simpl. now rewrite <- !List.app_assoc.
    + destruct Hwritten as [-> | [-> | [bytes ->]]]; reflexivity.
    + destruct (saving_cases faults output (BodyComplete data)
                  (Spec.requested (first :: visited) w))
        as [(reason & w1 & Hend & _)
           | [(reason & received & w2 & Hend & _)
             | [(bytes & _ & Hend) | (received & reason & _ & Hend)]]];
        rewrite Hend; discriminate.
  - intros Haccepts.
    destruct (accepts_run faults (Spec.requested (first :: visited) w)
                (path_dirname output) output data Haccepts) as [Hmade Hwritten].
    rewrite Hmade, Hwritten.
    eexists. split; [reflexivity|]. simpl.
    split; [now rewrite <- !List.app_assoc|apply lookup_insert_eq].
  - intros Hurl Hscheme Haccepts.
    destruct (follow_chain net visited 20 first final data Hchain ltac:(lia) Hlast Hfinal)
      as (r & Hfetch & Hstatus & _ & Hbody).
    rewrite disk_execute_unfold, Hurl, Hparse.
    apply supported_scheme in Hscheme. rewrite Hscheme. cbv zeta.
    unfold Fetch.fetch. rewrite Hfetch.
    rewrite (proj2 (ok_range r) Hstatus). simpl negb. cbv iota. rewrite Hbody.
    destruct (accepts_run faults (record (Fetched first) w) _ _ data Haccepts)
      as [Hmade Hwritten].
    rewrite Hmade, Hwritten.
    do 2 eexists. split; [reflexivity|]. simpl.
    split; [reflexivity|]. split; [reflexivity|].
    split; [apply lookup_insert_eq|now rewrite <- !List.app_assoc].
Qed.

End Claims.

(** ** Further properties of the sources *)

Section Further.
  Context `{Platform}.

Lemma requested_one (u : URL) (w : World) :
  record (Requested (Cli.requestImpl_for u) u) w = Spec.requested [u] w.
Proof. now rewrite <- requested_cons, requested_nil. Qed.

(** The shape of every run of [download]: requests for some URLs, at
    most as many as the counter leaves of the cap and one, and then
    either nothing more, the promise rejecting or an exception escaping,
    or the directory and the file of a final response with a success
    status. *)
Lemma download_shape (net : Network) (k : nat) :
  forall (url output : string) (redirects : nat) (w : World),
    (Cli.MAX_REDIRECTS - redirects <= k)%nat ->
    exists visited : list URL,
      (length visited <= S (Cli.MAX_REDIRECTS - redirects))%nat
      /\ (((Cli.download net url output redirects w).2 = Spec.requested visited w
           /\ exists e, (Cli.download net url output redirects w).1 = Thrown e
                        \/ (Cli.download net url output redirects w).1 = Uncaught e)
          \/ exists final response data,
              last visited = Some final
              /\ net (Cli.requestImpl_for final) final = Responded response
              /\ (200 <= Js.nullish (statusCode response) 0 < 300)%Z
              /\ ((body response = BodyComplete data
                   /\ (Cli.download net url output redirects w).1 = Returned tt)
                  \/ exists reason,
                      body response = BodyAborted data reason
                      /\ (Cli.download net url output redirects w).1
                         = Thrown (TransportError reason))
              /\ (Cli.download net url output redirects w).2
                 = fs_write output data
                     (fs_mkdir (path_dirname output) (Spec.requested visited w))).
Proof.
  induction k as [|k IH]; intros url output redirects w Hk;
    rewrite Cli.download_equation_1;
    (destruct (URL_parse url) as [parsed|];
     [|exists []; split; [simpl; lia|left; rewrite requested_nil; eauto]]);
    cbv zeta;
    (destruct (net (Cli.requestImpl_for parsed) parsed) as [reason|response] eqn:Hnet;
     [exists [parsed]; split; [simpl; lia|left; rewrite requested_one; eauto]|]).
  all: destruct (Cli.is_redirect response) eqn:Hredirect.
  all: try (destruct (decide (Cli.MAX_REDIRECTS <= redirects)%nat) as [Hge|Hlt];
            [exists [parsed]; split; [simpl; lia|left; rewrite requested_one; eauto]|];
            destruct (URL_parse_base _ parsed) as [next|];
            [|exists [parsed]; split; [simpl; lia|left; rewrite requested_one; eauto]]).
  - lia.
  - destruct ((_ <? 200)%Z || _) eqn:Hstatus;
      [exists [parsed]; split; [simpl; lia|left; rewrite requested_one; eauto]|].
    apply orb_false_iff in Hstatus as [Hlow Hhigh].
    apply Z.ltb_ge in Hlow. apply Z.leb_gt in Hhigh.
    exists [parsed]. split; [simpl; lia|]. right.
    destruct (body response) as [data|received reason] eqn:Hbody.
    + exists parsed, response, data. rewrite requested_one. rewrite Hbody. eauto 10.
    + exists parsed, response, received. rewrite requested_one. rewrite Hbody. eauto 10.
  - destruct (IH (URL_toString next) output (redirects + 1)%nat
                (record (Requested (Cli.requestImpl_for parsed) parsed) w))
      as (visited & Hlen & Hcases); [lia|].
    exists (parsed :: visited). split; [simpl; lia|].
    rewrite requested_cons in Hcases.
    destruct Hcases as [Hleft | (final & response' & data & Hlast & Hrest)];
      [left; exact Hleft|].
    right. exists final, response', data. split; [|exact Hrest].
    destruct visited; [discriminate|exact Hlast].
  - destruct ((_ <? 200)%Z || _) eqn:Hstatus;
      [exists [parsed]; split; [simpl; lia|left; rewrite requested_one; eauto]|].
    apply orb_false_iff in Hstatus as [Hlow Hhigh].
    apply Z.ltb_ge in Hlow. apply Z.leb_gt in Hhigh.
    exists [parsed]. split; [simpl; lia|]. right.
    destruct (body response) as [data|received reason] eqn:Hbody.
    + exists parsed, response, data. rewrite requested_one. rewrite Hbody. eauto 10.
    + exists parsed, response, received. rewrite requested_one. rewrite Hbody. eauto 10.
Qed.

(** X3.  When the promise of [download] resolves, the network answered
    a request with a success status and a body that arrived completely,
    the file at [output] holds exactly that body, and writing it was the
    last thing that happened. *)
Theorem download_resolves_only_with_complete_body
    (net : Network) (url output : string) (redirects : nat) (w : World) :
  (Cli.download net url output redirects w).1 = Returned tt ->
  exists (final : URL) (response : IncomingMessage) (data : list byte),
    net (Cli.requestImpl_for final) final = Responded response
    /\ (200 <= Js.nullish (statusCode response) 0 < 300)%Z
    /\ body response = BodyComplete data
    /\ files (Cli.download net url output redirects w).2 !! output = Some data
    /\ last (events (Cli.download net url output redirects w).2) = Some (Wrote output data).
Proof.
  intros Hreturned.
  destruct (download_shape net (Cli.MAX_REDIRECTS - redirects) url output redirects w
              (Nat.le_refl _))
    as (visited & _ & [[_ [e [He|He]]]
                      | (final & response & data & _ & Hnet & Hstatus & Hbody & Hworld)]);
    try congruence.
  destruct Hbody as [[Hbody _] | (reason & _ & Hthrown)]; [|congruence].
  exists final, response, data. rewrite Hworld. simpl.
  repeat split; try assumption; try lia.
  - apply lookup_insert_eq.
  - apply last_snoc.
Qed.

(** *** [parseArgs] and [main] *)

Lemma parseArgs_ok (urlArg : string) (rest : list string) (w : World) (parsedUrl : URL) :
  urlArg <> "" -> urlArg <> "--help" -> urlArg <> "-h" ->
  URL_parse urlArg = Some parsedUrl ->
  protocol parsedUrl = "http:" \/ protocol parsedUrl = "https:" ->
  Cli.parseArgs (urlArg :: rest) w
  = (Returned {| Cli.url := URL_toString parsedUrl;
                 Cli.output := Cli.resolveOutput parsedUrl (rest !! 0%nat) |}, w).
Proof.
  intros Hne Hhelp Hh Hparse Hscheme.
  unfold Cli.parseArgs. simpl.
  rewrite (truthy_nonempty _ Hne).
  rewrite (proj2 (String.eqb_neq _ _) Hhelp), (proj2 (String.eqb_neq _ _) Hh). simpl.
  unfold bind, try_catch, new_URL. rewrite Hparse. unfold ret at 1.
  apply supported_scheme in Hscheme.
  unfold Js.includes in Hscheme. simpl in Hscheme. now rewrite Hscheme.
Qed.

(** What [main] does once [parseArgs] has returned. *)
Lemma main_after_parse (net : Network) (argv : list string) (w w1 : World)
    (args : Cli.CliArgs) :
  Cli.parseArgs argv w = (Returned args, w1) ->
  Cli.main net argv w
  = match Cli.download net (Cli.url args) (Cli.output args) 0
            (record (Logged ("Downloading " +:+ Cli.url args)) w1) with
    | (Returned _, w2) =>
        (Returned tt, record (Logged ("Saved to " +:+ Cli.output args)) w2)
    | (Thrown e, w2) =>
        (Exited 1, record (LoggedError ("Error: " +:+ error_message e)) w2)
    | (Exited code, w2) => (Exited code, w2)
    | (Uncaught e, w2) => (Uncaught e, w2)
    end.
Proof.
  intros Hargs. unfold Cli.main, try_catch, bind, act. rewrite Hargs.
  destruct (Cli.download net _ _ 0 _) as [[[]|e|code|e] w2]; reflexivity.
Qed.

(** The four ways in which [parseArgs] ends; it leaves the world as it
    was but for the usage text. *)
Lemma parseArgs_cases (argv : list string) (w : World) :
  (Cli.parseArgs argv w = (Exited 0, record (Logged Cli.usage) w)
   /\ (argv !! 0%nat = Some "--help" \/ argv !! 0%nat = Some "-h"))
  \/ Cli.parseArgs argv w = (Exited 1, record (Logged Cli.usage) w)
  \/ (exists e, Cli.parseArgs argv w = (Thrown e, w))
  \/ (exists args, Cli.parseArgs argv w = (Returned args, w)).
Proof.
  unfold Cli.parseArgs.
  destruct (argv !! 0%nat) as [urlArg|]; simpl; [|right; left; reflexivity].
  destruct (Js.truthy urlArg); simpl; [|right; left; reflexivity].
  destruct (String.eqb urlArg "--help") eqn:Hhelp; simpl.
  { left. apply String.eqb_eq in Hhelp. subst. split; [reflexivity|now left]. }
  destruct (String.eqb urlArg "-h") eqn:Hh; simpl.
  { left. apply String.eqb_eq in Hh. subst. split; [reflexivity|now right]. }
  right. right. unfold bind, try_catch, new_URL.
  destruct (URL_parse urlArg) as [parsedUrl|]; [|left; now eexists].
  unfold ret, throw. simpl.
  destruct (negb _); [left|right]; now eexists.
Qed.

(** X5.  A failure of the transport before any response is reported and
    changes nothing on disk.  [main] prints [Error:] with the reason of
    the failure after the one request and exits with status 1; [execute]
    throws the error of [fetch] after the one fetch; files and
    directories are those of before. *)
Theorem transport_failure_reported :
  (forall (net : Network) (urlArg : string) (rest : list string) (w : World)
          (parsedUrl first : URL) (reason : string),
      urlArg <> "" -> urlArg <> "--help" -> urlArg <> "-h" ->
      URL_parse urlArg = Some parsedUrl ->
      protocol parsedUrl = "http:" \/ protocol parsedUrl = "https:" ->
      URL_parse (URL_toString parsedUrl) = Some first ->
      net (Cli.requestImpl_for first) first = RequestFailed reason ->
      exists w',
        Cli.main net (urlArg :: rest) w = (Exited 1, w')
        /\ events w'
           = (events w
              ++ [Logged ("Downloading " +:+ URL_toString parsedUrl);
                  Requested (Cli.requestImpl_for first) first;
                  LoggedError ("Error: " +:+ reason)])%list
        /\ files w' = files w
        /\ dirs w' = dirs w)
  /\ (forall (fetch : URL -> Plugin.FetchResult) (args : Plugin.Args)
             (context : Plugin.ToolContext) (w : World) (parsedUrl : URL) (reason : string),
        URL_parse (Plugin.arg_url args) = Some parsedUrl ->
        protocol parsedUrl = "http:" \/ protocol parsedUrl = "https:" ->
        fetch parsedUrl = Plugin.FetchRejected reason ->
        exists w',
          Plugin.execute fetch args context w = (Thrown (TransportError reason), w')
          /\ events w' = (events w ++ [Fetched parsedUrl])%list
          /\ files w' = files w
          /\ dirs w' = dirs w).
Proof.
  split.
  - intros net urlArg rest w parsedUrl first reason Hne Hhelp Hh Hparse Hscheme Hfirst Hnet.
    rewrite (main_after_parse net _ w w _
               (parseArgs_ok urlArg rest w parsedUrl Hne Hhelp Hh Hparse Hscheme)).
    cbn [Cli.url Cli.output].
    rewrite Cli.download_equation_1, Hfirst. cbv zeta. rewrite Hnet.
    eexists. split; [reflexivity|]. simpl.
    repeat split. now rewrite <- !List.app_assoc.
  - intros fetch args context w parsedUrl reason Hparse Hscheme Hfetch.
    rewrite execute_unfold, Hparse.
    apply supported_scheme in Hscheme. rewrite Hscheme. simpl. rewrite Hfetch.
    eexists. repeat split; reflexivity.
Qed.

(** X6.  A redirect whose [Location] value the URL parser refuses is not
    turned into a rejection: below the cap the exception of the parser
    escapes the promise of [download] after the one request, and the
    handler of [main] does not see what escapes: it prints no [Error:]
    line and sets no exit status. *)
Theorem invalid_redirect_target_escapes :
  (forall (net : Network) (url output : string) (redirects : nat) (w : World)
          (parsed : URL) (response : IncomingMessage),
      URL_parse url = Some parsed ->
      net (Cli.requestImpl_for parsed) parsed = Responded response ->
      Cli.is_redirect response = true ->
      (redirects < Cli.MAX_REDIRECTS)%nat ->
      URL_parse_base (Js.narrowed (headers_location response)) parsed = None ->
      Cli.download net url output redirects w
      = (Uncaught (TypeError "Invalid URL"),
         record (Requested (Cli.requestImpl_for parsed) parsed) w))
  /\ (forall (net : Network) (argv : list string) (w w1 w2 : World)
             (args : Cli.CliArgs) (e : Error),
        Cli.parseArgs argv w = (Returned args, w1) ->
        Cli.download net (Cli.url args) (Cli.output args) 0
          (record (Logged ("Downloading " +:+ Cli.url args)) w1)
        = (Uncaught e, w2) ->
        Cli.main net argv w = (Uncaught e, w2)).
Proof.
  split.
  - intros net url output redirects w parsed response Hparse Hnet Hredirect Hcap Hnext.
    rewrite Cli.download_equation_1, Hparse. cbv zeta. rewrite Hnet, Hredirect.
    destruct (decide (Cli.MAX_REDIRECTS <= redirects)%nat) as [Hge|_]; [lia|].
    now rewrite Hnext.
  - intros net argv w w1 w2 args e Hargs Hdownload.
    now rewrite (main_after_parse net argv w w1 args Hargs), Hdownload.
Qed.

(** X7.  Asked for help, [main] prints the usage text and exits with
    status 0; without a URL, or with an empty one, it prints the usage
    text and exits with status 1.  Nothing else happens in either case,
    whatever arguments follow. *)
Theorem help_and_missing_url (net : Network) (rest : list string) (w : World) :
  Cli.main net ("--help" :: rest) w = (Exited 0, record (Logged Cli.usage) w)
  /\ Cli.main net ("-h" :: rest) w = (Exited 0, record (Logged Cli.usage) w)
  /\ Cli.main net [] w = (Exited 1, record (Logged Cli.usage) w)
  /\ Cli.main net ("" :: rest) w = (Exited 1, record (Logged Cli.usage) w).
Proof. repeat split; reflexivity. Qed.

(** X9.  An argument that the URL parser refuses is reported as an
    invalid URL, naming the argument: [parseArgs] throws the error
    before anything is requested or written, and [main] prints it after
    [Error:] and exits with status 1. *)
Theorem invalid_url_reported
    (net : Network) (urlArg : string) (rest : list string) (w : World) :
  urlArg <> "" -> urlArg <> "--help" -> urlArg <> "-h" ->
  URL_parse urlArg = None ->
  Cli.parseArgs (urlArg :: rest) w = (Thrown (Cli.InvalidURL urlArg), w)
  /\ Cli.main net (urlArg :: rest) w
     = (Exited 1, record (LoggedError ("Error: Invalid URL: " +:+ urlArg)) w).
Proof.
  intros Hne Hhelp Hh Hparse.
  assert (Hargs : Cli.parseArgs (urlArg :: rest) w = (Thrown (Cli.InvalidURL urlArg), w)).
  { unfold Cli.parseArgs. simpl.
    rewrite (truthy_nonempty _ Hne).
    rewrite (proj2 (String.eqb_neq _ _) Hhelp), (proj2 (String.eqb_neq _ _) Hh). simpl.
    unfold bind, try_catch, new_URL. now rewrite Hparse. }
  split; [exact Hargs|].
  unfold Cli.main, try_catch, bind. now rewrite Hargs.
Qed.

(** *** The inferred file name and the plugin *)

(** X11.  The file name inferred from a URL is one path component: it is
    never empty and holds no slash, whatever the path of the URL is. *)
Theorem inferred_filename_is_a_component (u : URL) :
  Plugin.inferFilenameFromUrl u <> ""
  /\ Spec.has_slash (Plugin.inferFilenameFromUrl u) = false
  /\ Cli.inferFilenameFromUrl u = Plugin.inferFilenameFromUrl u.
Proof.
  destruct (LastSegment_total (pathname u)) as [segment Hsegment].
  split; [|split; [|reflexivity]];
    rewrite (inferFilenameFromUrl_segment u segment Hsegment);
    destruct Hsegment as [_ | before name after _ Hne Hname _ _]; simpl;
    (discriminate || assumption || reflexivity).
Qed.

(** X14.  An empty output path counts as none, and arguments after the
    second are not read: [execute] with the empty string for
    [outputPath] runs as with [outputPath] omitted, and [parseArgs] with
    an empty second argument, or with any further arguments, as without
    them. *)
Theorem empty_output_path_is_omitted :
  (forall (fetch : URL -> Plugin.FetchResult) (url : string)
          (context : Plugin.ToolContext) (w : World),
      Plugin.execute fetch {| Plugin.arg_url := url; Plugin.arg_outputPath := Some "" |}
        context w
      = Plugin.execute fetch {| Plugin.arg_url := url; Plugin.arg_outputPath := None |}
          context w)
  /\ (forall (urlArg : string) (rest : list string) (w : World),
        Cli.parseArgs (urlArg :: "" :: rest) w = Cli.parseArgs [urlArg] w)
  /\ (forall (urlArg outputArg : string) (rest : list string) (w : World),
        Cli.parseArgs (urlArg :: outputArg :: rest) w
        = Cli.parseArgs [urlArg; outputArg] w).
Proof.
  split; [|split].
  - intros fetch url context w. rewrite !execute_unfold. reflexivity.
  - intros urlArg rest w. reflexivity.
  - intros urlArg outputArg rest w. reflexivity.
Qed.

(** *** The errors of the two programs *)

Lemma append_dot_inj (x y : string) : x +:+ "." = y +:+ "." -> x = y.
Proof.
  revert y. induction x as [|c x IH]; intros [|d y] Heq.
  - reflexivity.
  - rewrite append_empty_l, append_cons in Heq. injection Heq as _ Heq.
    destruct y; discriminate.
  - rewrite append_empty_l, append_cons in Heq. injection Heq as _ Heq.
    destruct x; discriminate.
  - rewrite !append_cons in Heq. injection Heq as -> Heq. f_equal. now apply IH.
Qed.

(** X17.  The download-failed error carries its status: the messages of
    two such errors are the same only when the statuses are. *)
Theorem download_failed_carries_status (status1 status2 : Z) :
  error_message (DownloadFailed status1) = error_message (DownloadFailed status2) ->
  status1 = status2.
Proof.
  unfold DownloadFailed. simpl. intros Heq.
  apply (inj (String.append "Download failed with status ")) in Heq.
  apply append_dot_inj in Heq.
  exact (inj pretty _ _ Heq).
Qed.

(** *** On a file system that can refuse *)


(** X2.  However it ends, [download] changes no file but the one at
    [output], and makes no directory but the one [output] lies in and
    those on the way to it. *)
Theorem download_touches_only_output
    (faults : Disk.Faults) (net : Network) (url output : string) (redirects : nat)
    (w : World) (path : string) :
  path <> output ->
  files (OnDisk.download faults net url output redirects w).2 !! path = files w !! path
  /\ dirs (OnDisk.download faults net url output redirects w).2
     ⊆ {[path_dirname output]} ∪ list_to_set (Disk.ancestors (path_dirname output)) ∪ dirs w.
Proof.
  intros Hpath.
  destruct (disk_download_shape faults net (Cli.MAX_REDIRECTS - redirects) url output
              redirects w (Nat.le_refl _))
    as (visited & _ & [[Hworld _] | (final & response & _ & _ & _ & Hrun)]).
  - rewrite Hworld. simpl. split; [reflexivity|]. apply union_subseteq_r.
  - rewrite Hrun.
    exact (saving_frame faults output (body response) (Spec.requested visited w) path Hpath).
Qed.

(** X4.  A body that breaks off after a success status leaves a
    truncated file: on a disk that accepts the directory and the file,
    [download] rejects with the error of the transport, and the file at
    [output] holds the bytes received until then; nothing removes it. *)
Theorem download_leaves_truncated_file
    (faults : Disk.Faults) (net : Network) (url output : string) (redirects : nat)
    (w : World) (parsed : URL) (response : IncomingMessage) (received : list byte)
    (reason : string) :
  URL_parse url = Some parsed ->
  net (Cli.requestImpl_for parsed) parsed = Responded response ->
  (200 <= Js.nullish (statusCode response) 0 < 300)%Z ->
  body response = BodyAborted received reason ->
  Disk.accepts faults w (path_dirname output) output = true ->
  exists w',
    OnDisk.download faults net url output redirects w = (Thrown (TransportError reason), w')
    /\ files w' !! output = Some received
    /\ events w'
       = (events w
          ++ [Requested (Cli.requestImpl_for parsed) parsed;
              MadeDir (path_dirname output);
              Wrote output received])%list.
Proof.
  intros Hparse Hnet Hstatus Hbody Haccepts.
  rewrite (disk_download_final faults net url output redirects w parsed response
             Hparse Hnet Hstatus), Hbody.
  destruct (accepts_run faults (record (Requested (Cli.requestImpl_for parsed) parsed) w)
              (path_dirname output) output received Haccepts) as [Hmade Hwritten].
  rewrite Hmade, Hwritten.
  eexists. split; [reflexivity|]. simpl.
  split; [apply lookup_insert_eq|now rewrite <- !List.app_assoc].
Qed.

(** What [main] does once [parseArgs] has returned. *)
Lemma disk_main_after_parse (faults : Disk.Faults) (net : Network) (argv : list string)
    (w w1 : World) (args : Cli.CliArgs) :
  Cli.parseArgs argv w = (Returned args, w1) ->
  OnDisk.main faults net argv w
  = match OnDisk.download faults net (Cli.url args) (Cli.output args) 0
            (record (Logged ("Downloading " +:+ Cli.url args)) w1) with
    | (Returned _, w2) =>
        (Returned tt, record (Logged ("Saved to " +:+ Cli.output args)) w2)
    | (Thrown e, w2) =>
        (Exited 1, record (LoggedError ("Error: " +:+ error_message e)) w2)
    | (Exited code, w2) => (Exited code, w2)
    | (Uncaught e, w2) => (Uncaught e, w2)
    end.
Proof.
  intros Hargs. unfold OnDisk.main, try_catch, bind, act. rewrite Hargs.
  destruct (OnDisk.download faults net _ _ 0 _) as [[[]|e|code|e] w2]; reflexivity.
Qed.

(** The errors [download] ends with, each with its cause; it sets no
    exit status. *)
Lemma disk_download_errors (faults : Disk.Faults) (net : Network) (url output : string)
    (redirects : nat) (w : World) :
  (forall e,
      (OnDisk.download faults net url output redirects w).1 = Thrown e ->
      e = TypeError "Invalid URL"
      \/ e = Cli.TooManyRedirects
      \/ (exists u reason,
             net (Cli.requestImpl_for u) u = RequestFailed reason
             /\ e = TransportError reason)
      \/ (exists u response,
             net (Cli.requestImpl_for u) u = Responded response
             /\ (Js.nullish (statusCode response) 0 < 200
                 \/ 300 <= Js.nullish (statusCode response) 0)%Z
             /\ e = DownloadFailed (Js.nullish (statusCode response) 0))
      \/ (exists u response received reason,
             net (Cli.requestImpl_for u) u = Responded response
             /\ body response = BodyAborted received reason
             /\ e = TransportError reason)
      \/ (exists received w1 w2,
             Disk.write faults output received w1 = Disk.Refused e w2))
  /\ (forall e,
        (OnDisk.download faults net url output redirects w).1 = Uncaught e ->
        e = TypeError "Invalid URL"
        \/ exists w1 w2, Disk.mkdir faults (path_dirname output) w1 = Disk.Refused e w2)
  /\ (forall code, (OnDisk.download faults net url output redirects w).1 <> Exited code).
Proof.
  destruct (disk_download_shape faults net (Cli.MAX_REDIRECTS - redirects) url output
              redirects w (Nat.le_refl _))
    as (visited & _ & [[_ Hend] | (final & response & _ & Hnet & _ & Hrun)]).
  - destruct Hend as [Hend | [Hend | [Hend | [(u & reason & Hnet & Hend)
                                             | (u & response & Hnet & Hstatus & Hend)]]]];
      rewrite Hend; (split; [|split]); try (intros e [= <-]); try discriminate; eauto 10.
  - rewrite Hrun.
    destruct (saving_cases faults output (body response) (Spec.requested visited w))
      as [(reason & w1 & Hend & Hrefused & _)
         | [(reason & received & w2 & Hend & Hrefused & _)
           | [(data & _ & Hend) | (received & reason & Hbody & Hend)]]];
      rewrite Hend; (split; [|split]); try (intros e [= <-]); try discriminate.
    + eauto.
    + do 5 right. eauto.
    + do 4 right. left. exists final, response, received, reason. auto.
Qed.

(** X8.  [main] turns every error into an exit status: an error thrown
    by [parseArgs] or by [download] is printed after [Error:] and the
    process exits with status 1; [main] never throws.  The status is 0
    only when help was asked for.  [main] returns only when [download]
    has resolved, and the last thing it does then is to print [Saved
    to] with the output path that [parseArgs] resolved. *)
Theorem main_never_throws
    (faults : Disk.Faults) (net : Network) (argv : list string) (w : World) :
  (forall e w1,
      Cli.parseArgs argv w = (Thrown e, w1) ->
      OnDisk.main faults net argv w
      = (Exited 1, record (LoggedError ("Error: " +:+ error_message e)) w1))
  /\ (forall args w1 e w2,
        Cli.parseArgs argv w = (Returned args, w1) ->
        OnDisk.download faults net (Cli.url args) (Cli.output args) 0
          (record (Logged ("Downloading " +:+ Cli.url args)) w1)
        = (Thrown e, w2) ->
        OnDisk.main faults net argv w
        = (Exited 1, record (LoggedError ("Error: " +:+ error_message e)) w2))
  /\ (forall e, (OnDisk.main faults net argv w).1 <> Thrown e)
  /\ (forall code,
        (OnDisk.main faults net argv w).1 = Exited code ->
        code = 1%Z
        \/ (code = 0%Z /\ (argv !! 0%nat = Some "--help" \/ argv !! 0%nat = Some "-h")))
  /\ ((OnDisk.main faults net argv w).1 = Returned tt ->
      exists args w1 w2,
        Cli.parseArgs argv w = (Returned args, w1)
        /\ OnDisk.download faults net (Cli.url args) (Cli.output args) 0
             (record (Logged ("Downloading " +:+ Cli.url args)) w1)
           = (Returned tt, w2)
        /\ (OnDisk.main faults net argv w).2
           = record (Logged ("Saved to " +:+ Cli.output args)) w2).
Proof.
  split; [|split].
  { intros e w1 Hargs. unfold OnDisk.main, try_catch, bind. now rewrite Hargs. }
  { intros args w1 e w2 Hargs Hdownload.
    now rewrite (disk_main_after_parse faults net argv w w1 args Hargs), Hdownload. }
  destruct (parseArgs_cases argv w)
    as [[Hargs Hflag] | [Hargs | [[e Hargs] | [args Hargs]]]].
  - assert (Hmain : OnDisk.main faults net argv w = (Exited 0, record (Logged Cli.usage) w))
      by (unfold OnDisk.main, try_catch, bind; now rewrite Hargs).
    rewrite Hmain. simpl. repeat split; try discriminate.
    intros code [= <-]. right. now split.
  - assert (Hmain : OnDisk.main faults net argv w = (Exited 1, record (Logged Cli.usage) w))
      by (unfold OnDisk.main, try_catch, bind; now rewrite Hargs).
    rewrite Hmain. simpl. repeat split; try discriminate.
    intros code [= <-]. now left.
  - assert (Hmain : OnDisk.main faults net argv w
                    = (Exited 1, record (LoggedError ("Error: " +:+ error_message e)) w))
      by (unfold OnDisk.main, try_catch, bind; now rewrite Hargs).
    rewrite Hmain. simpl. repeat split; try discriminate.
    intros code [= <-]. now left.
  - rewrite (disk_main_after_parse faults net argv w w args Hargs).
    destruct (disk_download_errors faults net (Cli.url args) (Cli.output args) 0%nat
                (record (Logged ("Downloading " +:+ Cli.url args)) w)) as (_ & _ & Hexit).
    destruct (OnDisk.download faults net _ _ 0 _) as [[[]|e|code|e] w2] eqn:Hdownload;
      simpl in *.
    + repeat split; try discriminate.
      intros _. exists args, w, w2. auto.
    + repeat split; try discriminate.
      intros code [= <-]. now left.
    + now destruct (Hexit code).
    + repeat split; discriminate.
Qed.

(** X10.  From the command line to the file: for an http or https URL
    whose redirect chain has at most 5 hops and ends in a success with a
    complete body, on a disk that accepts the directory and the file of
    the output path, [main] prints that it downloads the URL as the
    parser serialises it, requests the URLs of the chain in order, makes
    the directory, writes the body to the output path that [parseArgs]
    resolved, prints where it saved the file, and returns. *)
Theorem main_saves_along_chain
    (faults : Disk.Faults) (net : Network) (urlArg : string) (rest : list string)
    (w : World) (parsedUrl first final : URL) (visited : list URL) (data : list byte) :
  urlArg <> "" -> urlArg <> "--help" -> urlArg <> "-h" ->
  URL_parse urlArg = Some parsedUrl ->
  protocol parsedUrl = "http:" \/ protocol parsedUrl = "https:" ->
  URL_parse (URL_toString parsedUrl) = Some first ->
  Spec.RedirectChain net (first :: visited) ->
  (Spec.chain_length (first :: visited) <= 5)%nat ->
  last (first :: visited) = Some final ->
  Spec.succeeds_with net final data ->
  Disk.accepts faults w
    (path_dirname (Cli.resolveOutput parsedUrl (rest !! 0%nat)))
    (Cli.resolveOutput parsedUrl (rest !! 0%nat)) = true ->
  exists w',
    OnDisk.main faults net (urlArg :: rest) w = (Returned tt, w')
    /\ events w'
       = (events w
          ++ [Logged ("Downloading " +:+ URL_toString parsedUrl)]
          ++ map (fun u => Requested (Cli.requestImpl_for u) u) (first :: visited)
          ++ [MadeDir (path_dirname (Cli.resolveOutput parsedUrl (rest !! 0%nat)));
              Wrote (Cli.resolveOutput parsedUrl (rest !! 0%nat)) data;
              Logged ("Saved to " +:+ Cli.resolveOutput parsedUrl (rest !! 0%nat))])%list
    /\ files w' !! Cli.resolveOutput parsedUrl (rest !! 0%nat) = Some data.
Proof.
  intros Hne Hhelp Hh Hparse Hscheme Hfirst Hchain Hlen Hlast Hfinal Haccepts.
  unfold Spec.chain_length in Hlen. simpl in Hlen.
  rewrite (disk_main_after_parse faults net _ w w _
             (parseArgs_ok urlArg rest w parsedUrl Hne Hhelp Hh Hparse Hscheme)).
  cbn [Cli.url Cli.output].
  rewrite (disk_download_follows_chain faults net visited _ _ 0%nat _ first final data
             Hfirst Hchain);
    [|unfold Cli.MAX_REDIRECTS; lia|exact Hlast|exact Hfinal].
  destruct (accepts_run faults
              (Spec.requested (first :: visited)
                 (record (Logged ("Downloading " +:+ URL_toString parsedUrl)) w))
              _ _ data Haccepts) as [Hmade Hwritten].
  rewrite Hmade, Hwritten.
  eexists. split; [reflexivity|]. simpl.
  split; [now rewrite <- !List.app_assoc|apply lookup_insert_eq].
Qed.

(** X12.  However [execute] ends, no file but the one at the
    destination differs from before (an existing file there is
    replaced), and no directory is made but the one the destination
    lies in and those on the way to it; when [execute] returns, exactly
    these directories were added. *)
Theorem execute_touches_only_destination
    (faults : Disk.Faults) (fetch : URL -> Plugin.FetchResult) (args : Plugin.Args)
    (context : Plugin.ToolContext) (w : World) (parsedUrl : URL)
    (destination path : string) :
  URL_parse (Plugin.arg_url args) = Some parsedUrl ->
  destination
  = Plugin.resolveDestination parsedUrl (Plugin.arg_outputPath args)
      (Plugin.directory context) ->
  path <> destination ->
  files (OnDisk.execute faults fetch args context w).2 !! path = files w !! path
  /\ dirs (OnDisk.execute faults fetch args context w).2
     ⊆ {[path_dirname destination]}
       ∪ list_to_set (Disk.ancestors (path_dirname destination)) ∪ dirs w
  /\ forall result,
      (OnDisk.execute faults fetch args context w).1 = Returned result ->
      Plugin.outputPath result = destination
      /\ dirs (OnDisk.execute faults fetch args context w).2
         = {[path_dirname destination]}
           ∪ list_to_set (Disk.ancestors (path_dirname destination)) ∪ dirs w.
Proof.
  intros Hparse -> Hpath.
  rewrite disk_execute_unfold, Hparse.
  destruct (negb (Js.includes _ (protocol parsedUrl)));
    [simpl; split; [reflexivity|split; [apply union_subseteq_r|discriminate]]|].
  cbv zeta.
  destruct (fetch parsedUrl) as [reason|r];
    [simpl; split; [reflexivity|split; [apply union_subseteq_r|discriminate]]|].
  destruct (negb (Plugin.ok r));
    [simpl; split; [reflexivity|split; [apply union_subseteq_r|discriminate]]|].
  destruct (Plugin.response_body r) as [data|received reason];
    [|simpl; split; [reflexivity|split; [apply union_subseteq_r|discriminate]]].
  destruct (mkdir_cases faults
              (path_dirname
                 (Plugin.resolveDestination parsedUrl (Plugin.arg_outputPath args)
                    (Plugin.directory context)))
              (record (Fetched parsedUrl) w))
    as [Hmade | (reason & w1 & Hrefused & Hfiles & _ & Hdirs)].
  - rewrite Hmade.
    destruct (write_cases faults
                (Plugin.resolveDestination parsedUrl (Plugin.arg_outputPath args)
                   (Plugin.directory context))
                data
                (Disk.made
                   (path_dirname
                      (Plugin.resolveDestination parsedUrl (Plugin.arg_outputPath args)
                         (Plugin.directory context)))
                   (record (Fetched parsedUrl) w)))
      as [Hwritten | (reason & w2 & Hrefused & [Hleft | [count Hleft]])].
    + rewrite Hwritten. simpl. split; [apply lookup_insert_ne; congruence|].
      split; [reflexivity|]. intros result [= <-]. split; reflexivity.
    + rewrite Hrefused, Hleft. simpl. split; [reflexivity|split; [reflexivity|discriminate]].
    + rewrite Hrefused, Hleft. simpl. split; [apply lookup_insert_ne; congruence|].
      split; [reflexivity|discriminate].
  - rewrite Hrefused. simpl. rewrite Hfiles. split; [reflexivity|].
    split; [|discriminate].
    intros a Ha. apply Hdirs in Ha. apply elem_of_union in Ha as [Ha|Ha];
      [apply elem_of_union_l, elem_of_union_r|apply elem_of_union_r]; exact Ha.
Qed.

(** X13.  [execute] returns exactly when the URL parses, its scheme is
    http or https, [fetch] resolves with a status from 200 to 299, the
    body arrives completely, and the disk accepts the directory and the
    file of the destination.  Its result then names the requested URL,
    the resolved destination and the length of the body, and the world
    is the one of before with the fetch, the directory and the file
    added in this order. *)
Theorem execute_returns_exactly_when
    (faults : Disk.Faults) (fetch : URL -> Plugin.FetchResult) (args : Plugin.Args)
    (context : Plugin.ToolContext) (w w' : World) (result : Plugin.TransferResult) :
  OnDisk.execute faults fetch args context w = (Returned result, w')
  <-> exists (parsedUrl : URL) (r : Plugin.Response) (data : list byte),
      URL_parse (Plugin.arg_url args) = Some parsedUrl
      /\ (protocol parsedUrl = "http:" \/ protocol parsedUrl = "https:")
      /\ fetch parsedUrl = Plugin.FetchResolved r
      /\ (200 <= Plugin.status r < 300)%Z
      /\ Plugin.response_body r = BodyComplete data
      /\ result
         = {| Plugin.url := URL_toString parsedUrl;
              Plugin.outputPath :=
                Plugin.resolveDestination parsedUrl (Plugin.arg_outputPath args)
                  (Plugin.directory context);
              Plugin.bytesWritten := length data |}
      /\ Disk.accepts faults w (path_dirname (Plugin.outputPath result))
           (Plugin.outputPath result) = true
      /\ w' = fs_write (Plugin.outputPath result) data
                (Disk.made (path_dirname (Plugin.outputPath result))
                   (record (Fetched parsedUrl) w)).
Proof.
  rewrite disk_execute_unfold. split.
  - destruct (URL_parse (Plugin.arg_url args)) as [parsedUrl|]; [|discriminate].
    destruct (Js.includes _ (protocol parsedUrl)) eqn:Hscheme; [|discriminate].
    cbv zeta. simpl negb. cbv iota.
    destruct (fetch parsedUrl) as [reason|r] eqn:Hfetch; [discriminate|].
    destruct (Plugin.ok r) eqn:Hok; [|discriminate]. simpl negb. cbv iota.
    destruct (Plugin.response_body r) as [data|received reason] eqn:Hbody; [|discriminate].
    set (destination := Plugin.resolveDestination parsedUrl (Plugin.arg_outputPath args)
                          (Plugin.directory context)).
    destruct (Disk.accepts faults w (path_dirname destination) destination) eqn:Haccepts.
    + destruct (accepts_run faults (record (Fetched parsedUrl) w) _ _ data Haccepts)
        as [Hmade Hwritten].
      rewrite Hmade, Hwritten. intros [= <- <-].
      exists parsedUrl, r, data.
      apply supported_scheme in Hscheme. apply ok_range in Hok.
      repeat split; try reflexivity; try assumption; lia.
    + destruct (refuses_run faults (record (Fetched parsedUrl) w) _ _ data Haccepts)
        as [(e & w1 & Hrefused) | (Hmade & e & w2 & Hrefused)].
      * rewrite Hrefused. discriminate.
      * rewrite Hmade, Hrefused. discriminate.
  - intros (parsedUrl & r & data & Hparse & Hscheme & Hfetch & Hstatus & Hbody & -> &
            Haccepts & ->).
    rewrite Hparse. apply supported_scheme in Hscheme. rewrite Hscheme.
    cbv zeta. simpl negb. cbv iota. rewrite Hfetch.
    rewrite (proj2 (ok_range r) Hstatus). simpl negb. cbv iota. rewrite Hbody.
    simpl in Haccepts.
    destruct (accepts_run faults (record (Fetched parsedUrl) w) _ _ data Haccepts)
      as [Hmade Hwritten].
    rewrite Hmade, Hwritten. reflexivity.
Qed.


(** X16.  Every rejection of [download] carries one of these errors,
    each with its cause: the error of the URL parser for a URL it
    refuses, the too-many-redirects error, the error of a request that
    failed, the download-failed error with the status of a response
    outside the range from 200 to 299, the error of a body that broke
    off, or the error with which the disk refused the file.  What
    escapes the promise is the error of the URL parser or the error
    with which the disk refused the directory.  [download] sets no exit
    status. *)
Theorem download_failures_classified
    (faults : Disk.Faults) (net : Network) (url output : string) (redirects : nat)
    (w : World) :
  (forall e,
      (OnDisk.download faults net url output redirects w).1 = Thrown e ->
      e = TypeError "Invalid URL"
      \/ e = Cli.TooManyRedirects
      \/ (exists u reason,
             net (Cli.requestImpl_for u) u = RequestFailed reason
             /\ e = TransportError reason)
      \/ (exists u response,
             net (Cli.requestImpl_for u) u = Responded response
             /\ (Js.nullish (statusCode response) 0 < 200
                 \/ 300 <= Js.nullish (statusCode response) 0)%Z
             /\ e = DownloadFailed (Js.nullish (statusCode response) 0))
      \/ (exists u response received reason,
             net (Cli.requestImpl_for u) u = Responded response
             /\ body response = BodyAborted received reason
             /\ e = TransportError reason)
      \/ (exists received w1 w2,
             Disk.write faults output received w1 = Disk.Refused e w2))
  /\ (forall e,
        (OnDisk.download faults net url output redirects w).1 = Uncaught e ->
        e = TypeError "Invalid URL"
        \/ exists w1 w2, Disk.mkdir faults (path_dirname output) w1 = Disk.Refused e w2)
  /\ (forall code, (OnDisk.download faults net url output redirects w).1 <> Exited code).
Proof.
  exact (disk_download_errors faults net url output redirects w).
Qed.

(** X18.  The two programs on a disk that accepts the directory and the
    file of the destination end as on the file system that accepts
    everything: with the same outcome, the same files and the same
    events; the directories on the way to the destination are made in
    addition. *)
Theorem accepting_disk_agrees (faults : Disk.Faults) :
  (forall (net : Network) (url output : string) (redirects : nat) (w : World),
      Disk.accepts faults w (path_dirname output) output = true ->
      (OnDisk.download faults net url output redirects w).1
      = (Cli.download net url output redirects w).1
      /\ files (OnDisk.download faults net url output redirects w).2
         = files (Cli.download net url output redirects w).2
      /\ events (OnDisk.download faults net url output redirects w).2
         = events (Cli.download net url output redirects w).2
      /\ dirs (Cli.download net url output redirects w).2
         ⊆ dirs (OnDisk.download faults net url output redirects w).2)
  /\ (forall (fetch : URL -> Plugin.FetchResult) (args : Plugin.Args)
             (context : Plugin.ToolContext) (w : World),
        (forall parsedUrl,
            URL_parse (Plugin.arg_url args) = Some parsedUrl ->
            Disk.accepts faults w
              (path_dirname
                 (Plugin.resolveDestination parsedUrl (Plugin.arg_outputPath args)
                    (Plugin.directory context)))
              (Plugin.resolveDestination parsedUrl (Plugin.arg_outputPath args)
                 (Plugin.directory context)) = true) ->
        (OnDisk.execute faults fetch args context w).1
        = (Plugin.execute fetch args context w).1
        /\ files (OnDisk.execute faults fetch args context w).2
           = files (Plugin.execute fetch args context w).2
        /\ events (OnDisk.execute faults fetch args context w).2
           = events (Plugin.execute fetch args context w).2
        /\ dirs (Plugin.execute fetch args context w).2
           ⊆ dirs (OnDisk.execute faults fetch args context w).2).
Proof.
  split.
  - intros net url output redirects.
    remember (Cli.MAX_REDIRECTS - redirects)%nat as k eqn:Hk.
    assert (Hle : (Cli.MAX_REDIRECTS - redirects <= k)%nat) by lia. clear Hk.
    revert url redirects Hle.
    induction k as [|k IH]; intros url redirects Hle w Haccepts;
      rewrite OnDisk.download_equation_1, Cli.download_equation_1;
      (destruct (URL_parse url) as [parsed|]; [|now repeat split]);
      cbv zeta;
      (destruct (net (Cli.requestImpl_for parsed) parsed) as [reason|response];
       [now repeat split|]);
      (destruct (Cli.is_redirect response);
       [destruct (decide (Cli.MAX_REDIRECTS <= redirects)%nat) as [Hge|Hlt];
        [now repeat split|];
        destruct (URL_parse_base _ parsed) as [next|]; [|now repeat split]
       |destruct ((_ <? 200)%Z || _); [now repeat split|];
        destruct (body response) as [data|received reason];
        [destruct (accepts_run faults
                     (record (Requested (Cli.requestImpl_for parsed) parsed) w)
                     (path_dirname output) output data Haccepts) as [Hmade Hwritten]
        |destruct (accepts_run faults
                     (record (Requested (Cli.requestImpl_for parsed) parsed) w)
                     (path_dirname output) output received Haccepts) as [Hmade Hwritten]];
        rewrite Hmade, Hwritten; simpl;
        (split; [reflexivity|split; [reflexivity|split; [reflexivity|apply made_more]]])]).
    + lia.
    + apply IH; [lia|exact Haccepts].
  - intros fetch args context w Haccepts.
    rewrite disk_execute_unfold, execute_unfold.
    destruct (URL_parse (Plugin.arg_url args)) as [parsedUrl|]; [|now repeat split].
    specialize (Haccepts parsedUrl eq_refl).
    destruct (negb (Js.includes _ (protocol parsedUrl))); [now repeat split|].
    cbv zeta.
    destruct (fetch parsedUrl) as [reason|r]; [now repeat split|].
    destruct (negb (Plugin.ok r)); [now repeat split|].
    destruct (Plugin.response_body r) as [data|received reason]; [|now repeat split].
    destruct (accepts_run faults (record (Fetched parsedUrl) w) _ _ data Haccepts)
      as [Hmade Hwritten].
    rewrite Hmade, Hwritten. simpl.
    split; [reflexivity|split; [reflexivity|split; [reflexivity|apply made_more]]].
Qed.

End Further.

(** ** The scenarios, evaluated on the reference platform *)

Section Scenarios.
  Import Scenario.
  Local Existing Instance reference_platform.

Example scenario_report_destination :
  option_map (fun u => Plugin.resolveDestination u None "/base")
    (URL_parse "https://example.com/files/report.pdf")
  = Some "/base/report.pdf".
Proof. vm_compute. reflexivity. Qed.

Example scenario_no_segment_destination :
  option_map (fun u => Plugin.resolveDestination u None "/base")
    (URL_parse "https://example.com/")
  = Some "/base/downloaded-file".
Proof. vm_compute. reflexivity. Qed.

Example scenario_relative_location :
  option_map URL_toString (URL_parse_base "/v2/report.pdf" report)
  = Some "https://example.com/v2/report.pdf".
Proof. vm_compute. reflexivity. Qed.

Example scenario_five_hops_followed :
  let run := Cli.download net "https://example.com/r5" "/work/report.pdf" 0 empty in
  run.1 = Returned tt
  /\ files run.2 !! "/work/report.pdf" = Some content
  /\ length (List.filter is_net_event (events run.2)) = 6%nat.
Proof. vm_compute. repeat split; reflexivity. Qed.

Example scenario_six_hops_refused :
  let run := Cli.download net "https://example.com/r6" "/work/report.pdf" 0 empty in
  run.1 = Thrown (JsError "Too many redirects (>5).")
  /\ files run.2 !! "/work/report.pdf" = None
  /\ length (List.filter is_net_event (events run.2)) = 6%nat.
Proof. vm_compute. repeat split; reflexivity. Qed.

Example scenario_empty_location_not_followed :
  Cli.download net "https://example.com/blank" "/work/blank" 0 empty
  = (Thrown (DownloadFailed 302),
     record (Requested httpsRequest (at_path "/blank")) empty).
Proof. vm_compute. reflexivity. Qed.

Example scenario_broken_download_cli :
  let run := Cli.download net "https://example.com/cut" "/work/cut" 0 empty in
  run.1 = Thrown (TransportError "ECONNRESET")
  /\ files run.2 !! "/work/cut" = Some ["%"; "P"]%byte.
Proof. vm_compute. repeat split; reflexivity. Qed.

Example scenario_help :
  (Cli.main net ["--help"] empty).1 = Exited 0
  /\ (Cli.main net [] empty).1 = Exited 1
  /\ (Cli.main net ["not a url"] empty)
     = (Exited 1, record (LoggedError "Error: Invalid URL: not a url") empty).
Proof. vm_compute. repeat split; reflexivity. Qed.

Example scenario_saved :
  let run := Cli.main net ["https://example.com/files/report.pdf"; "out/r.pdf"] empty in
  run.1 = Returned tt
  /\ files run.2 !! "/work/out/r.pdf" = Some content
  /\ last (events run.2) = Some (Logged "Saved to /work/out/r.pdf").
Proof. vm_compute. repeat split; reflexivity. Qed.

Example scenario_not_found :
  (Cli.download net "https://example.com/missing" "/work/missing" 0 empty).1
  = Thrown (JsError "Download failed with status 404.").
Proof. vm_compute. reflexivity. Qed.

Ltac evaluate := vm_compute; first [reflexivity | discriminate | lia | intuition congruence].

(** The moved report is one hop away from the report, and the looping
  path one hop away from itself. *)
Lemma report_hop : Spec.hop net report moved.
Proof.
  exists {| statusCode := Some 302%Z; headers_location := Some "/v2/report.pdf";
            body := BodyComplete [] |}.
  repeat split; evaluate.
Defined.

Lemma loop_hop : Spec.hop net (at_path "/loop") (at_path "/loop").
Proof.
  exists {| statusCode := Some 302%Z; headers_location := Some "/loop";
            body := BodyComplete [] |}.
  repeat split; evaluate.
Defined.

Lemma moved_succeeds : Spec.succeeds_with net moved content.
Proof.
  exists {| statusCode := Some 200%Z; headers_location := None;
            body := BodyComplete content |}.
  repeat split; evaluate.
Defined.

(** C1, witness: the report that has moved, one hop, on a disk that
    refuses nothing. *)
Lemma redirect_chain_within_cap_succeeds_witness :
  (exists written,
      events (OnDisk.download Disk.willing net
                "https://example.com/files/report.pdf" "/work/report.pdf" 0 empty).2
      = (events empty
         ++ map (fun u => Requested (Cli.requestImpl_for u) u) [report; moved]
         ++ written)%list
      /\ List.filter is_net_event written = []
      /\ (OnDisk.download Disk.willing net
            "https://example.com/files/report.pdf" "/work/report.pdf" 0 empty).1
         <> Thrown Cli.TooManyRedirects)
  /\ (exists w',
        OnDisk.download Disk.willing net
          "https://example.com/files/report.pdf" "/work/report.pdf" 0 empty
        = (Returned tt, w')
        /\ events w'
           = (events empty
              ++ map (fun u => Requested (Cli.requestImpl_for u) u) [report; moved]
              ++ [MadeDir (path_dirname "/work/report.pdf");
                  Wrote "/work/report.pdf" content])%list
        /\ files w' !! "/work/report.pdf" = Some content)
  /\ (exists result w',
        OnDisk.execute Disk.willing (Fetch.fetch net)
          (tool_args "https://example.com/files/report.pdf") tool_context empty
        = (Returned result, w')
        /\ Plugin.url result = URL_toString report
        /\ Plugin.outputPath result
           = Plugin.resolveDestination report
               (Plugin.arg_outputPath (tool_args "https://example.com/files/report.pdf"))
               (Plugin.directory tool_context)
        /\ files w' !! Plugin.outputPath result = Some content
        /\ events w'
           = (events empty
              ++ [Fetched report;
                  MadeDir (path_dirname (Plugin.outputPath result));
                  Wrote (Plugin.outputPath result) content])%list).
Proof.
  destruct (redirect_chain_within_cap_succeeds Disk.willing net
              "https://example.com/files/report.pdf" "/work/report.pdf"
              (tool_args "https://example.com/files/report.pdf") tool_context empty
              report moved [moved] content) as (Hrequests & Hcli & Hplugin).
  - evaluate.
  - apply Spec.chain_hop; [exact report_hop|apply Spec.chain_start].
  - evaluate.
  - reflexivity.
  - exact moved_succeeds.
  - split; [exact Hrequests|]. split; [apply Hcli; evaluate|].
    apply Hplugin; [reflexivity|right; reflexivity|evaluate].
Defined.

(** C1 as stated does not hold: for the report that has moved, a chain
  of one hop ending in a 200 response, the plugin succeeds and the
  [url] of its result is the URL that was requested, not the last URL
  of the chain. *)
Lemma final_url_is_requested_url_counterexample :
  exists (result : Plugin.TransferResult) (w' : World),
    URL_parse "https://example.com/files/report.pdf" = Some report
    /\ Spec.RedirectChain net [report; moved]
    /\ (Spec.chain_length [report; moved] <= 5)%nat
    /\ Spec.succeeds_with net moved content
    /\ Plugin.execute (Fetch.fetch net)
         (tool_args "https://example.com/files/report.pdf") tool_context empty
       = (Returned result, w')
    /\ URL_toString moved = "https://example.com/v2/report.pdf"
    /\ Plugin.url result = "https://example.com/files/report.pdf"
    /\ Plugin.url result <> URL_toString moved.
Proof.
  eexists. eexists.
  split; [evaluate|].
  split; [apply Spec.chain_hop; [exact report_hop|apply Spec.chain_start]|].
  split; [evaluate|].
  split; [exact moved_succeeds|].
  split; [vm_compute; reflexivity|].
  repeat split; evaluate.
Qed.

(** C2, witness: the path that redirects to itself. *)
Lemma too_many_redirects_witness :
  exists w',
    Cli.download net "https://example.com/loop" "/work/loop" 0 empty
    = (Thrown Cli.TooManyRedirects, w')
    /\ events w'
       = (events empty
          ++ map (fun u => Requested (Cli.requestImpl_for u) u)
               (take 6 (at_path "/loop" :: replicate 6 (at_path "/loop"))))%list
    /\ files w' = files empty
    /\ dirs w' = dirs empty.
Proof.
  apply (too_many_redirects net "https://example.com/loop" "/work/loop" empty
           (at_path "/loop") (replicate 6 (at_path "/loop"))).
  - evaluate.
  - simpl. repeat (apply Spec.chain_hop; [exact loop_hop|]). apply Spec.chain_start.
  - evaluate.
Defined.

(** C3, witness: the missing page. *)
Lemma non_success_status_fails_witness :
  (exists w',
      Cli.download net "https://example.com/missing" "/work/missing" 0 empty
      = (Thrown (DownloadFailed 404), w')
      /\ events w'
         = (events empty
            ++ [Requested (Cli.requestImpl_for (at_path "/missing")) (at_path "/missing")])%list
      /\ files w' = files empty
      /\ dirs w' = dirs empty)
  /\ (exists w',
        Plugin.execute (Fetch.fetch net) (tool_args "https://example.com/missing")
          tool_context empty
        = (Thrown (DownloadFailed 404), w')
        /\ events w' = (events empty ++ [Fetched (at_path "/missing")])%list
        /\ files w' = files empty
        /\ dirs w' = dirs empty).
Proof.
  split.
  - apply (proj1 non_success_status_fails net "https://example.com/missing"
             "/work/missing" 0%nat empty (at_path "/missing")
             {| statusCode := Some 404%Z; headers_location := None;
                body := BodyComplete [] |}).
    + evaluate.
    + evaluate.
    + evaluate.
    + right. simpl. lia.
  - apply (proj2 non_success_status_fails (Fetch.fetch net)
             (tool_args "https://example.com/missing") tool_context empty
             (at_path "/missing")
             {| Plugin.status := 404;
                Plugin.response_url := URL_toString (at_path "/missing");
                Plugin.response_body := BodyComplete [] |}).
    + evaluate.
    + right. reflexivity.
    + evaluate.
    + right. simpl. lia.
Defined.

(** C4, witness: an ftp URL. *)
Lemma unsupported_scheme_rejected_witness :
  Plugin.execute (Fetch.fetch net) (tool_args "ftp://example.com/file") tool_context empty
  = (Thrown UnsupportedScheme, empty)
  /\ Cli.parseArgs ["ftp://example.com/file"] empty = (Thrown UnsupportedScheme, empty)
  /\ Cli.main net ["ftp://example.com/file"] empty
     = (Exited 1,
        record (LoggedError "Error: Only http and https URLs are supported.") empty).
Proof.
  split.
  - apply (proj1 unsupported_scheme_rejected (Fetch.fetch net)
             (tool_args "ftp://example.com/file") tool_context empty
             {| protocol := "ftp:"; host := "example.com"; pathname := "/file";
                query := None; fragment := None |}); evaluate.
  - apply (proj2 unsupported_scheme_rejected net "ftp://example.com/file" [] empty
             {| protocol := "ftp:"; host := "example.com"; pathname := "/file";
                query := None; fragment := None |}); evaluate.
Defined.


(** C6, witness: the report; its path has the last segment [report.pdf]. *)
Lemma destination_from_last_segment_witness :
  Spec.LastSegment (pathname report) (Some "report.pdf")
  /\ Plugin.resolveDestination report None "/base" = "/base/report.pdf"
  /\ Cli.resolveOutput report None = "/work/report.pdf".
Proof.
  assert (Hsegment : Spec.LastSegment (pathname report) (Some "report.pdf")).
  { apply (Spec.last_segment _ "/files/" "report.pdf" "");
      [reflexivity | discriminate | reflexivity | right; now exists "/files" | reflexivity]. }
  split; [exact Hsegment|].
  exact (destination_from_last_segment report "/base" (Some "report.pdf") Hsegment).
Defined.

(** C7, witness: the redirect of the report, [Location: /v2/report.pdf]
  received for [https://example.com/files/report.pdf], leads to a
  request for [https://example.com/v2/report.pdf]. *)
Lemma redirect_resolved_against_current_witness :
  URL_toString report = "https://example.com/files/report.pdf"
  /\ URL_toString moved = "https://example.com/v2/report.pdf"
  /\ exists later,
      events (Cli.download net "https://example.com/files/report.pdf"
                "/work/report.pdf" 0 empty).2
      = (events empty
         ++ Requested (Cli.requestImpl_for report) report
         :: Requested (Cli.requestImpl_for moved) moved
         :: later)%list.
Proof.
  split; [evaluate|]. split; [evaluate|].
  destruct (redirect_resolved_against_current net
              "https://example.com/files/report.pdf" "/work/report.pdf" 0%nat empty
              report
              {| statusCode := Some 302%Z; headers_location := Some "/v2/report.pdf";
                 body := BodyComplete [] |}
              "/v2/report.pdf") as [_ Hfollowed]; try evaluate.
  destruct (Hfollowed ltac:(discriminate) ltac:(evaluate) moved moved
              ltac:(evaluate) ltac:(evaluate)) as [_ Hrequests].
  exact Hrequests.
Defined.

(** C8, witness: the redirect without a target. *)
Lemma redirect_without_location_fails_witness :
  exists w',
    Cli.download net "https://example.com/bare" "/work/bare" 0 empty
    = (Thrown (DownloadFailed 301), w')
    /\ events w'
       = (events empty
          ++ [Requested (Cli.requestImpl_for (at_path "/bare")) (at_path "/bare")])%list
    /\ files w' = files empty
    /\ dirs w' = dirs empty.
Proof.
  apply (redirect_without_location_fails net "https://example.com/bare" "/work/bare"
           0%nat empty (at_path "/bare")
           {| statusCode := Some 301%Z; headers_location := None;
              body := BodyComplete [] |}); evaluate.
Defined.


(** C10, witness: query and fragment do not reach the destination. *)
Lemma destination_depends_on_pathname_only_witness :
  URL_parse "https://example.com/files/report.pdf?v=1#top"
  = Some {| protocol := "https:"; host := "example.com"; pathname := "/files/report.pdf";
            query := Some "v=1"; fragment := Some "top" |}
  /\ Plugin.resolveDestination
       {| protocol := "https:"; host := "example.com"; pathname := "/files/report.pdf";
          query := Some "v=1"; fragment := Some "top" |} None "/base"
     = "/base/report.pdf".
Proof.
  split; [evaluate|].
  rewrite (proj1 (proj2 (proj2
             (destination_depends_on_pathname_only
                {| protocol := "https:"; host := "example.com";
                   pathname := "/files/report.pdf";
                   query := Some "v=1"; fragment := Some "top" |}
                report "/base" eq_refl)))).
  evaluate.
Defined.

End Scenarios.

(** ** The further properties, on the scenarios *)

Section FurtherScenarios.
  Import Scenario.
  Local Existing Instance reference_platform.

Ltac settle :=
  first [ exact moved_succeeds
        | apply Spec.chain_hop; [exact report_hop|apply Spec.chain_start]
        | vm_compute; first [reflexivity | discriminate | lia | intuition congruence] ].

(** X3, witness: the report that has moved. *)
Lemma download_resolves_only_with_complete_body_witness :
  exists (final : URL) (response : IncomingMessage) (data : list byte),
    net (Cli.requestImpl_for final) final = Responded response
    /\ (200 <= Js.nullish (statusCode response) 0 < 300)%Z
    /\ body response = BodyComplete data
    /\ files (Cli.download net "https://example.com/files/report.pdf" "/work/report.pdf"
                0 empty).2 !! "/work/report.pdf" = Some data
    /\ last (events (Cli.download net "https://example.com/files/report.pdf"
                       "/work/report.pdf" 0 empty).2)
       = Some (Wrote "/work/report.pdf" data).
Proof.
  apply (download_resolves_only_with_complete_body net
           "https://example.com/files/report.pdf" "/work/report.pdf" 0%nat empty).
  settle.
Defined.

(** X5, witness: a host that does not resolve. *)
Lemma transport_failure_reported_witness :
  (exists w',
      Cli.main net ["https://elsewhere.test/file"] empty = (Exited 1, w')
      /\ events w'
         = (events empty
            ++ [Logged ("Downloading " +:+ URL_toString MoreScenarios.elsewhere);
                Requested (Cli.requestImpl_for MoreScenarios.elsewhere)
                  MoreScenarios.elsewhere;
                LoggedError ("Error: " +:+ "ENOTFOUND")])%list
      /\ files w' = files empty
      /\ dirs w' = dirs empty)
  /\ (exists w',
        Plugin.execute (Fetch.fetch net) (tool_args "https://elsewhere.test/file")
          tool_context empty
        = (Thrown (TransportError "ENOTFOUND"), w')
        /\ events w' = (events empty ++ [Fetched MoreScenarios.elsewhere])%list
        /\ files w' = files empty
        /\ dirs w' = dirs empty).
Proof.
  split.
  - apply (proj1 transport_failure_reported net "https://elsewhere.test/file" [] empty
             MoreScenarios.elsewhere MoreScenarios.elsewhere "ENOTFOUND"); settle.
  - apply (proj2 transport_failure_reported (Fetch.fetch net)
             (tool_args "https://elsewhere.test/file") tool_context empty
             MoreScenarios.elsewhere "ENOTFOUND"); settle.
Defined.

(** X6, witness: the redirect to [http://], which is no URL. *)
Lemma invalid_redirect_target_escapes_witness :
  Cli.download MoreScenarios.net "https://example.com/nowhere" "/work/nowhere" 0 empty
  = (Uncaught (TypeError "Invalid URL"),
     record (Requested (Cli.requestImpl_for (at_path "/nowhere")) (at_path "/nowhere")) empty)
  /\ Cli.main MoreScenarios.net ["https://example.com/nowhere"] empty
     = (Uncaught (TypeError "Invalid URL"),
        record (Requested httpsRequest (at_path "/nowhere"))
          (record (Logged "Downloading https://example.com/nowhere") empty)).
Proof.
  split.
  - apply (proj1 invalid_redirect_target_escapes MoreScenarios.net
             "https://example.com/nowhere" "/work/nowhere" 0%nat empty (at_path "/nowhere")
             {| statusCode := Some 302%Z; headers_location := Some "http://";
                body := BodyComplete [] |}); settle.
  - apply (proj2 invalid_redirect_target_escapes MoreScenarios.net
             ["https://example.com/nowhere"] empty empty
             (record (Requested httpsRequest (at_path "/nowhere"))
                (record (Logged "Downloading https://example.com/nowhere") empty))
             {| Cli.url := "https://example.com/nowhere"; Cli.output := "/work/nowhere" |}
             (TypeError "Invalid URL")); settle.
Defined.

(** X9, witness: an argument with a space and no scheme. *)
Lemma invalid_url_reported_witness :
  Cli.parseArgs ["not a url"] empty = (Thrown (Cli.InvalidURL "not a url"), empty)
  /\ Cli.main net ["not a url"] empty
     = (Exited 1, record (LoggedError ("Error: Invalid URL: " +:+ "not a url")) empty).
Proof.
  apply (invalid_url_reported net "not a url" [] empty); settle.
Defined.

(** X17, witness: the message of the missing page, and the status read
    back from it. *)
Lemma download_failed_carries_status_witness :
  error_message (DownloadFailed 404) = "Download failed with status 404."
  /\ (404 = 404)%Z.
Proof.
  split; [reflexivity|].
  exact (download_failed_carries_status 404 404 eq_refl).
Defined.

(** X2, witness: the notes beside the report stay as they are while the
    report is replaced. *)
Lemma download_touches_only_output_witness :
  "/work/notes.txt" <> "/work/report.pdf"
  /\ files MoreScenarios.furnished !! "/work/notes.txt" = Some ["h"; "i"]%byte
  /\ files (OnDisk.download Disk.willing net "https://example.com/files/report.pdf"
              "/work/report.pdf" 0 MoreScenarios.furnished).2 !! "/work/notes.txt"
     = files MoreScenarios.furnished !! "/work/notes.txt"
  /\ dirs (OnDisk.download Disk.willing net "https://example.com/files/report.pdf"
             "/work/report.pdf" 0 MoreScenarios.furnished).2
     ⊆ {[path_dirname "/work/report.pdf"]}
       ∪ list_to_set (Disk.ancestors (path_dirname "/work/report.pdf"))
       ∪ dirs MoreScenarios.furnished.
Proof.
  assert (Hpath : "/work/notes.txt" <> "/work/report.pdf") by discriminate.
  split; [exact Hpath|]. split; [settle|].
  exact (download_touches_only_output Disk.willing net
           "https://example.com/files/report.pdf" "/work/report.pdf" 0%nat
           MoreScenarios.furnished "/work/notes.txt" Hpath).
Defined.

(** X4, witness: the download that breaks off after two bytes. *)
Lemma download_leaves_truncated_file_witness :
  exists w',
    OnDisk.download Disk.willing net "https://example.com/cut" "/work/cut" 0 empty
    = (Thrown (TransportError "ECONNRESET"), w')
    /\ files w' !! "/work/cut" = Some ["%"; "P"]%byte
    /\ events w'
       = (events empty
          ++ [Requested (Cli.requestImpl_for (at_path "/cut")) (at_path "/cut");
              MadeDir (path_dirname "/work/cut");
              Wrote "/work/cut" ["%"; "P"]%byte])%list.
Proof.
  apply (download_leaves_truncated_file Disk.willing net "https://example.com/cut"
           "/work/cut" 0%nat empty (at_path "/cut")
           {| statusCode := Some 200%Z; headers_location := None;
              body := BodyAborted ["%"; "P"]%byte "ECONNRESET" |}); settle.
Defined.

(** X10, witness: the report that has moved, saved under a relative
    output path. *)
Lemma main_saves_along_chain_witness :
  exists w',
    OnDisk.main Disk.willing net ["https://example.com/files/report.pdf"; "out/r.pdf"] empty
    = (Returned tt, w')
    /\ events w'
       = (events empty
          ++ [Logged ("Downloading " +:+ URL_toString report)]
          ++ map (fun u => Requested (Cli.requestImpl_for u) u) [report; moved]
          ++ [MadeDir (path_dirname (Cli.resolveOutput report (["out/r.pdf"] !! 0%nat)));
              Wrote (Cli.resolveOutput report (["out/r.pdf"] !! 0%nat)) content;
              Logged ("Saved to " +:+ Cli.resolveOutput report (["out/r.pdf"] !! 0%nat))])%list
    /\ files w' !! Cli.resolveOutput report (["out/r.pdf"] !! 0%nat) = Some content.
Proof.
  apply (main_saves_along_chain Disk.willing net "https://example.com/files/report.pdf"
           ["out/r.pdf"] empty report report moved [moved] content); settle.
Defined.

(** X12, witness: the plugin replaces the report and nothing beside it. *)
Lemma execute_touches_only_destination_witness :
  files MoreScenarios.furnished !! "/work/notes.txt" = Some ["h"; "i"]%byte
  /\ files (OnDisk.execute Disk.willing (Fetch.fetch net)
              {| Plugin.arg_url := "https://example.com/v2/report.pdf";
                 Plugin.arg_outputPath := Some "/work/report.pdf" |}
              tool_context MoreScenarios.furnished).2 !! "/work/notes.txt"
     = files MoreScenarios.furnished !! "/work/notes.txt"
  /\ dirs (OnDisk.execute Disk.willing (Fetch.fetch net)
             {| Plugin.arg_url := "https://example.com/v2/report.pdf";
                Plugin.arg_outputPath := Some "/work/report.pdf" |}
             tool_context MoreScenarios.furnished).2
     ⊆ {[path_dirname "/work/report.pdf"]}
       ∪ list_to_set (Disk.ancestors (path_dirname "/work/report.pdf"))
       ∪ dirs MoreScenarios.furnished.
Proof.
  split; [settle|].
  destruct (execute_touches_only_destination Disk.willing (Fetch.fetch net)
              {| Plugin.arg_url := "https://example.com/v2/report.pdf";
                 Plugin.arg_outputPath := Some "/work/report.pdf" |}
              tool_context MoreScenarios.furnished moved "/work/report.pdf"
              "/work/notes.txt") as (Hfiles & Hdirs & _).
  - settle.
  - settle.
  - discriminate.
  - split; [exact Hfiles|exact Hdirs].
Defined.

(** *** What a refusal of the disk leads to *)

(** The output path lies under a file: [mkdirSync] throws inside the
    response callback, so the promise of [download] never settles and
    [main] prints neither where it saved the file nor an error. *)
Example scenario_output_under_a_file :
  let run :=
    OnDisk.main Disk.willing net
      ["https://example.com/v2/report.pdf"; "/work/notes.txt/report.pdf"]
      MoreScenarios.furnished in
  run.1 = Uncaught (Disk.EEXIST "/work/notes.txt")
  /\ events run.2
     = [Logged "Downloading https://example.com/v2/report.pdf";
        Requested httpsRequest moved]
  /\ files run.2 = files MoreScenarios.furnished.
Proof. vm_compute. repeat split; reflexivity. Qed.

(** The same destination for the plugin: the promise of [mkdir]
    rejects, and [execute] throws. *)
Example scenario_destination_under_a_file :
  let run :=
    OnDisk.execute Disk.willing (Fetch.fetch net)
      {| Plugin.arg_url := "https://example.com/v2/report.pdf";
         Plugin.arg_outputPath := Some "/work/notes.txt/report.pdf" |}
      tool_context MoreScenarios.furnished in
  run.1 = Thrown (Disk.EEXIST "/work/notes.txt")
  /\ events run.2 = [Fetched moved]
  /\ files run.2 = files MoreScenarios.furnished.
Proof. vm_compute. repeat split; reflexivity. Qed.

(** The output path is a directory: the file stream fails, the promise
    rejects, and [main] prints the error and exits with status 1. *)
Example scenario_output_is_a_directory :
  let run :=
    OnDisk.main Disk.willing net ["https://example.com/v2/report.pdf"; "/work"]
      MoreScenarios.furnished in
  run.1 = Exited 1
  /\ last (events run.2)
     = Some (LoggedError "Error: EISDIR: illegal operation on a directory, open '/work'")
  /\ files run.2 = files MoreScenarios.furnished.
Proof. vm_compute. repeat split; reflexivity. Qed.

(** The directories on the way are made with the directory of the
    output path. *)
Example scenario_directories_on_the_way :
  let run :=
    OnDisk.download Disk.willing net "https://example.com/v2/report.pdf"
      "/work/deep/er/report.pdf" 0 MoreScenarios.furnished in
  run.1 = Returned tt
  /\ dirs run.2 = {["/work"; "/work/deep"; "/work/deep/er"]}.
Proof.
  split; [vm_compute; reflexivity|].
  apply set_eq. intros dir. vm_compute dirs. set_solver.
Qed.

(** A full disk: the file is created and stays empty, [execute] throws
    the error of the disk. *)
Example scenario_disk_full :
  let run :=
    OnDisk.execute DiskScenarios.full (Fetch.fetch net)
      (tool_args "https://example.com/v2/report.pdf") tool_context empty in
  run.1 = Thrown (SystemError "ENOSPC: no space left on device, write")
  /\ files run.2 !! "/base/report.pdf" = Some [].
Proof. vm_compute. repeat split; reflexivity. Qed.

(** Nothing may be made under [/sealed]: nothing is made or written. *)
Example scenario_sealed :
  let run :=
    OnDisk.download DiskScenarios.sealed net "https://example.com/v2/report.pdf"
      "/sealed/in/report.pdf" 0 empty in
  run.1 = Uncaught (SystemError "EACCES: permission denied, mkdir '/sealed/in'")
  /\ files run.2 = files empty
  /\ dirs run.2 = dirs empty.
Proof. vm_compute. repeat split; reflexivity. Qed.

End FurtherScenarios.
